(** * UnitTest node: generic functions

    A shallow embedding of
    [packages/nodes-base/nodes/UnitTest/GenericFunctions.ts]
    and the properties its specification states about it.

    The TypeScript code manipulates plain JavaScript values: parameter
    bags, parsed JSON and the [_unitTest] metadata envelope are all
    objects.  They are modelled by one value type, [Js.value], whose
    objects are finite maps from property names to values. *)

From Stdlib Require Import ZArith Ascii.
From stdpp Require Import gmap strings list fin_maps pretty.

Open Scope string_scope.

(** ** JavaScript values and the handful of operators the code uses *)

Module Js.

Local Unset Elimination Schemes.

(** Numbers are restricted to integers: the code under study never
    computes with a number, it only carries it around. *)
Inductive value : Type :=
  | JUndefined
  | JNull
  | JBool (b : bool)
  | JNumber (n : Z)
  | JString (s : string)
  | JArray (l : list value)
  | JObject (o : gmap string value).

Global Instance value_inhabited : Inhabited value := populate JUndefined.

(** [ToBoolean]: what [if (v)], [!v] and [v || w] look at. *)
Definition truthy (v : value) : bool :=
  match v with
  | JUndefined | JNull => false
  | JBool b => b
  | JNumber n => negb (n =? 0)%Z
  | JString s => negb (String.eqb s EmptyString)
  | JArray _ | JObject _ => true
  end.

(** The characters of a string, each as a one-character string value
    (code units and bytes coincide on ASCII text). *)
Fixpoint chars (s : string) : list value :=
  match s with
  | EmptyString => []
  | String c s' => JString (String c EmptyString) :: chars s'
  end.

(** [{0: x0, 1: x1, ...}] shifted by [i]. *)
Fixpoint indexed (i : nat) (l : list value) : gmap string value :=
  match l with
  | [] => ∅
  | x :: l' => <[pretty i := x]> (indexed (S i) l')
  end.

(** Own enumerable string-keyed properties: what [{...v}] copies. *)
Definition entries (v : value) : gmap string value :=
  match v with
  | JObject o => o
  | JArray l => indexed 0 l
  | JString s => indexed 0 (chars s)
  | _ => ∅
  end.

(** [v.k] for a value that is neither [undefined] nor [null] and a
    name [k] that none of the built-in prototypes defines (the code
    reads [operation], [additionalFields], [isCleanUpBranchEnabled],
    [isFailBranchEnabled] and [testId] only). *)
Definition get (v : value) (k : string) : value :=
  match v with
  | JArray l =>
      if String.eqb k "length" then JNumber (Z.of_nat (length l))
      else default JUndefined (entries v !! k)
  | JString s =>
      if String.eqb k "length" then JNumber (Z.of_nat (String.length s))
      else default JUndefined (entries v !! k)
  | _ => default JUndefined (entries v !! k)
  end.

(** [v?.k] *)
Definition getOpt (v : value) (k : string) : value :=
  match v with
  | JUndefined | JNull => JUndefined
  | _ => get v k
  end.

(** [v === s] for a string [s]. *)
Definition eqString (v : value) (s : string) : bool :=
  match v with
  | JString s' => String.eqb s' s
  | _ => false
  end.

(** [v !== undefined] *)
Definition isDefined (v : value) : bool :=
  match v with
  | JUndefined => false
  | _ => true
  end.

(** [s || d] for an optional string property [s] and a non-empty
    default [d]: an absent property reads as [undefined]. *)
Definition orString (s : option string) (d : string) : string :=
  match s with
  | Some s' => if truthy (JString s') then s' else d
  | None => d
  end.

End Js.

Import Js.

(** ** Exceptions and completions *)

Module INode.
(** The two fields of a workflow node the code reads. *)
Record t : Type := mk { name : string; type : string }.
End INode.

(** What a [throw] can carry here: the parse failure of [JSON.parse],
    the operational error the node raises itself, and whatever the
    host's expression evaluator raises. *)
Inductive Exception : Type :=
  | SyntaxError (message : string)
  | NodeOperationError (node : INode.t) (message : string) (itemIndex : Z)
  | HostError (name message : string).

Inductive Completion (A : Type) : Type :=
  | Normal (a : A)
  | Throw (e : Exception).
Arguments Normal {A} a.
Arguments Throw {A} e.

Global Instance Completion_ret : MRet Completion := λ A a, Normal a.

Global Instance Completion_bind : MBind Completion := λ A B k c,
  match c with
  | Normal a => k a
  | Throw e => Throw e
  end.

(** [Array.prototype.map] with a callback that may throw: elements are
    visited from left to right and the first exception ends the call. *)
Fixpoint Array_map {A B} (f : A → Completion B) (l : list A) : Completion (list B) :=
  match l with
  | [] => Normal []
  | a :: l' => b ← f a; bs ← Array_map f l'; Normal (b :: bs)
  end.

(** [array.push(x)] *)
Definition Array_push {A} (l : list A) (x : A) : list A := (l ++ [x])%list.

(** ** Branch topology *)

Module Branch.
(** A connection descriptor: [{type, displayName?, category?}]. *)
Record t : Type := mk {
  type : string;
  displayName : option string;
  category : option string;
}.
End Branch.

Section Topology.

(** [`${NodeConnectionType.Main}`]: the host's name of the main
    connection kind. *)
Variable Main : string.

(** The parameter bag is an object. *)
Implicit Types parameters : gmap string value.

Definition nodeInputs parameters : list Branch.t :=
  let operation := get (JObject parameters) "operation" in
  if eqString operation "booleanInputComparison" then
    let inputBranches := ["pass"; "fail"] in
    map (λ branch, Branch.mk Main (Some branch) None) inputBranches
  else
    [Branch.mk Main None None].

Definition cleanUpBranchInput parameters : value :=
  getOpt (get (JObject parameters) "additionalFields") "isCleanUpBranchEnabled".

Definition failBranchInput parameters : value :=
  getOpt (get (JObject parameters) "additionalFields") "isFailBranchEnabled".

Definition nodeOutputs parameters (cleanUpBranchDefault failBranchDefault : bool)
  : list Branch.t :=
  let isCleanUpBranchEnabled :=
    if isDefined (cleanUpBranchInput parameters)
    then cleanUpBranchInput parameters else JBool cleanUpBranchDefault in
  let isFailBranchEnabled :=
    if isDefined (failBranchInput parameters)
    then failBranchInput parameters else JBool failBranchDefault in
  let outputBranchArray : list Branch.t := [] in
  let outputBranchArray :=
    if truthy isCleanUpBranchEnabled
    then Array_push outputBranchArray (Branch.mk Main (Some "Clean Up") None)
    else outputBranchArray in
  let outputBranchArray :=
    if truthy isFailBranchEnabled
    then Array_push outputBranchArray (Branch.mk Main (Some "On Fail") (Some "error"))
    else outputBranchArray in
  outputBranchArray.

End Topology.

(** The module-level defaults the node configuration passes in. *)
Definition throwOnFailConst : bool := false.
Definition cleanUpBranchDefault : bool := false.
Definition failBranchDefault : bool := true.
Definition disableOnFailConst : bool := false.

(** *** The specification's reading of a toggle *)

(** A toggle is explicitly set or left unset. *)
Inductive Toggle : Type :=
  | Unset
  | Explicit (b : bool).

(** How a toggle reaches the code. *)
Definition toggleValue (t : Toggle) : value :=
  match t with
  | Unset => JUndefined
  | Explicit b => JBool b
  end.

(** An unset toggle takes the supplied default. *)
Definition resolve (t : Toggle) (d : bool) : bool :=
  match t with
  | Unset => d
  | Explicit b => b
  end.

(** The state of the toggle [k] as the parameter bag holds it, under
    [additionalFields]: unset when [additionalFields] is missing (or
    [undefined], or [null]) or is an object without the property [k]
    (or with [k: undefined]); explicit when the property is a boolean.
    [None] when the bag holds anything else there. *)
Definition toggleAt (parameters : gmap string value) (k : string) : option Toggle :=
  match parameters !! "additionalFields" with
  | None | Some JUndefined | Some JNull => Some Unset
  | Some (JObject fields) =>
      match fields !! k with
      | None | Some JUndefined => Some Unset
      | Some (JBool b) => Some (Explicit b)
      | Some _ => None
      end
  | Some _ => None
  end.

(** The branch list the specification describes. *)
Definition outputBranches (Main : string) (cleanUp onFail : bool) : list Branch.t :=
  ((if cleanUp then [Branch.mk Main (Some "Clean Up") None] else [])
   ++ (if onFail then [Branch.mk Main (Some "On Fail") (Some "error")] else []))%list.

(** ** Test data: raw inputs, metadata envelope, emitted items *)

Module KeyValue.
Record t : Type := mk { key : string; value : string }.
End KeyValue.

(** [testRun]: the object holding the rows of one test run.  Its only
    declared property is [keyValueData]; [None] is the object without
    that property, [testRun: {}], the case the materializer's guard
    looks for. *)
Record TestRun : Type := { keyValueData : option (list KeyValue.t) }.

Module RawKeyValueInputItems.
Record t : Type := mk { testRunName : option string; testRun : TestRun }.
End RawKeyValueInputItems.

Module RawJsonInput.
Record t : Type := mk { testRunName : option string; jsonTestRun : string }.
End RawJsonInput.

(** [UnitTestMetaData]: every field is optional. *)
Record UnitTestMetaData : Type := {
  pass : option bool;
  testId : option string;
  testRunName : option string;
  triggerInputData : option value;
}.

(** The envelope as the object it is at run time: a property for each
    field that is present. *)
Definition metaObject (m : UnitTestMetaData) : value :=
  let o : gmap string value := ∅ in
  let o := match pass m with Some b => <["pass" := JBool b]> o | None => o end in
  let o := match testId m with Some s => <["testId" := JString s]> o | None => o end in
  let o := match testRunName m with
           | Some s => <["testRunName" := JString s]> o | None => o end in
  let o := match triggerInputData m with
           | Some v => <["triggerInputData" := v]> o | None => o end in
  JObject o.

(** [TriggerReturnData]: [{json: {...}}]. *)
Record TriggerReturnData : Type := { json : gmap string value }.

(** [Object.keys(testRun)] *)
Definition Object_keys (r : TestRun) : list string :=
  match keyValueData r with
  | Some _ => ["keyValueData"]
  | None => []
  end.

(** [jsonObject[key] = value] on a plain object and a string [value]:
    the name [__proto__] reaches the inherited setter, which ignores a
    string; every other name becomes (or overwrites) an own property. *)
Definition assign (jsonObject : gmap string string) (k v : string) : gmap string string :=
  if String.eqb k "__proto__" then jsonObject else <[k := v]> jsonObject.

(** ** Key/value materializer *)

(** The callback of [rawKeyValueData.map]. *)
Definition keyValueItem (testId : string) (item : RawKeyValueInputItems.t)
  : TriggerReturnData :=
  let testRun := RawKeyValueInputItems.testRun item in
  if (length (Object_keys testRun) =? 0)%nat then {| json := ∅ |}
  else
    (* past the guard [keyValueData] is there *)
    let rows := default [] (keyValueData testRun) in
    let jsonObject := foldl (λ o kv, assign o (KeyValue.key kv) (KeyValue.value kv)) ∅ rows in
    let unitTestMetadata := {|
      pass := None;
      testId := Some testId;
      testRunName := Some (orString (RawKeyValueInputItems.testRunName item) "unnamed");
      triggerInputData := Some (JObject (JString <$> jsonObject));
    |} in
    {| json := <["_unitTest" := metaObject unitTestMetadata]> (JString <$> jsonObject) |}.

(** [rawKeyValueData] is [None] when the caller passes [undefined]. *)
Definition getReturnNodeJsonFromKeyValue
    (rawKeyValueData : option (list RawKeyValueInputItems.t)) (testId : string)
  : list TriggerReturnData :=
  match rawKeyValueData with
  | None => []
  | Some items => map (keyValueItem testId) items
  end.

(** ** JSON materializer *)

Section JsonMaterializer.

(** The built-in [JSON.parse]: a value, or the [SyntaxError] it throws. *)
Variable JSON_parse : string → Completion value.

(** The callback of [rawJsonInputData.map]. *)
Definition jsonItem (testId : string) (item : RawJsonInput.t)
  : Completion TriggerReturnData :=
  parsedJson ←
    match JSON_parse (RawJsonInput.jsonTestRun item) with
    | Normal v => Normal v
    | Throw e => Throw e            (* catch (e) { throw e; } *)
    end;
  let unitTestMetadata := {|
    pass := None;
    testId := Some testId;
    testRunName := Some (orString (RawJsonInput.testRunName item) "unnamed");
    triggerInputData := Some parsedJson;
  |} in
  Normal {| json := <["_unitTest" := metaObject unitTestMetadata]> (entries parsedJson) |}.

Definition getReturnNodeJsonFromJson
    (rawJsonInputData : option (list RawJsonInput.t)) (testId : string)
  : Completion (list TriggerReturnData) :=
  match rawJsonInputData with
  | None => Normal []
  | Some items => Array_map (jsonItem testId) items
  end.

End JsonMaterializer.

(** ** A model of the built-in [JSON.parse]

    The grammar of ECMA-404 without fractions, exponents and [\u]
    escapes (texts using them are outside this model and rejected),
    enough to run the materializer on literal inputs.  The general
    results about the materializer do not depend on it: they hold for
    any [JSON_parse]. *)

Module JSON.

Definition dquote : ascii := ascii_of_nat 34.

Definition is_ws (c : ascii) : bool :=
  match c with
  | " "%char | "009"%char | "010"%char | "013"%char => true
  | _ => false
  end.

Fixpoint skip_ws (s : string) : string :=
  match s with
  | String c s' => if is_ws c then skip_ws s' else s
  | EmptyString => s
  end.

Definition digit (c : ascii) : option Z :=
  let n := Z.of_N (N_of_ascii c) in
  if ((48 <=? n) && (n <=? 57))%Z then Some (n - 48)%Z else None.

Fixpoint digits (acc : Z) (s : string) : Z * string :=
  match s with
  | String c s' =>
      match digit c with
      | Some d => digits (10 * acc + d)%Z s'
      | None => (acc, s)
      end
  | EmptyString => (acc, s)
  end.

(** [0] or a non-empty digit sequence that does not start with [0]. *)
Definition unsigned (s : string) : option (Z * string) :=
  match s with
  | String c s' =>
      match digit c with
      | Some 0%Z => Some (0%Z, s')
      | Some d => Some (digits d s')
      | None => None
      end
  | EmptyString => None
  end.

Definition integral (s : string) : bool :=
  match s with
  | String "."%char _ | String "e"%char _ | String "E"%char _ => false
  | _ => true
  end.

Definition number (s : string) : option (Z * string) :=
  '(n, r) ← match s with
            | String "-"%char s' => '(n, r) ← unsigned s'; Some (- n, r)%Z
            | _ => unsigned s
            end;
  if integral r then Some (n, r) else None.

Definition unescape (c : ascii) : option ascii :=
  if Ascii.eqb c dquote then Some dquote
  else match c with
       | "\"%char => Some "\"%char
       | "/"%char => Some "/"%char
       | "b"%char => Some "008"%char
       | "f"%char => Some "012"%char
       | "n"%char => Some "010"%char
       | "r"%char => Some "013"%char
       | "t"%char => Some "009"%char
       | _ => None
       end.

(** The rest of a string literal, after its opening quote. *)
Fixpoint string_body (s : string) : option (string * string) :=
  match s with
  | EmptyString => None
  | String c s' =>
      if Ascii.eqb c dquote then Some (EmptyString, s')
      else if Ascii.eqb c "\"%char then
        match s' with
        | String e s'' =>
            c' ← unescape e;
            '(str, r) ← string_body s'';
            Some (String c' str, r)
        | EmptyString => None
        end
      else if (N_of_ascii c <? 32)%N then None
      else '(str, r) ← string_body s'; Some (String c str, r)
  end.

Fixpoint strip (prefix s : string) : option string :=
  match prefix, s with
  | EmptyString, _ => Some s
  | String a prefix', String b s' =>
      if Ascii.eqb a b then strip prefix' s' else None
  | String _ _, EmptyString => None
  end.

Fixpoint element (fuel : nat) (s : string) : option (value * string) :=
  match fuel with
  | 0 => None
  | S fuel =>
      match skip_ws s with
      | EmptyString => None
      | String c r =>
          if Ascii.eqb c dquote then
            '(str, r') ← string_body r; Some (JString str, r')
          else
            match c with
            | "{"%char =>
                match skip_ws r with
                | String "}"%char r' => Some (JObject ∅, r')
                | _ => members fuel ∅ r
                end
            | "["%char =>
                match skip_ws r with
                | String "]"%char r' => Some (JArray [], r')
                | _ => elements fuel [] r
                end
            | "t"%char => r' ← strip "rue" r; Some (JBool true, r')
            | "f"%char => r' ← strip "alse" r; Some (JBool false, r')
            | "n"%char => r' ← strip "ull" r; Some (JNull, r')
            | _ => '(n, r') ← number (String c r); Some (JNumber n, r')
            end
      end
  end
with members (fuel : nat) (acc : gmap string value) (s : string)
  : option (value * string) :=
  match fuel with
  | 0 => None
  | S fuel =>
      match skip_ws s with
      | String c r =>
          if Ascii.eqb c dquote then
            '(k, r1) ← string_body r;
            match skip_ws r1 with
            | String ":"%char r2 =>
                '(v, r3) ← element fuel r2;
                match skip_ws r3 with
                | String ","%char r4 => members fuel (<[k := v]> acc) r4
                | String "}"%char r4 => Some (JObject (<[k := v]> acc), r4)
                | _ => None
                end
            | _ => None
            end
          else None
      | EmptyString => None
      end
  end
with elements (fuel : nat) (acc : list value) (s : string)
  : option (value * string) :=
  match fuel with
  | 0 => None
  | S fuel =>
      '(v, r) ← element fuel s;
      match skip_ws r with
      | String ","%char r' => elements fuel (Array_push acc v) r'
      | String "]"%char r' => Some (JArray (Array_push acc v), r')
      | _ => None
      end
  end.

Definition parse (text : string) : Completion value :=
  match element (2 * String.length text + 2) text with
  | Some (v, r) =>
      match skip_ws r with
      | EmptyString => Normal v
      | String _ _ => Throw (SyntaxError "Unexpected non-whitespace character after JSON")
      end
  | None => Throw (SyntaxError "Unexpected token in JSON")
  end.

End JSON.

(** ** Trigger correlator *)

(** The services of [IExecuteFunctions] the correlator calls. *)
Record IExecuteFunctions : Type := {
  getNode : INode.t;
  getParentNodes : string → list INode.t;
  evaluateExpression : string → Z → Completion value;
}.

(** [`{{ $('${name}').item.json._unitTest }}`] *)
Definition triggerExpression (name : string) : string :=
  "{{ $('" ++ name ++ "').item.json._unitTest }}".

(** [triggerMetaData?.testId === testId] *)
Definition hasTestId (triggerMetaData : value) (testId : string) : bool :=
  eqString (getOpt triggerMetaData "testId") testId.

(** The two variables the loop assigns.  A [let] without initialiser
    holds [undefined]: [None] for the name, [JUndefined] for the
    envelope. *)
Record Scan : Type := {
  triggerName : option string;
  triggerMetaData : value;
}.

Definition scanStart : Scan :=
  {| triggerName := None; triggerMetaData := JUndefined |}.

Section Correlator.

Variable n : IExecuteFunctions.
Variable testId : string.
Variable itemIndex : Z.

Definition testTriggerNodes : list INode.t :=
  List.filter (λ node, String.eqb (INode.type node) "n8n-nodes-base.unitTestTrigger")
    (getParentNodes n (INode.name (getNode n))).

(** The envelope the host reads off one ancestor. *)
Definition probe (triggerNode : INode.t) : Completion value :=
  evaluateExpression n (triggerExpression (INode.name triggerNode)) itemIndex.

(** One round of the loop: the body of [try], or nothing at all when
    the evaluation throws. *)
Definition scanStep (st : Scan) (triggerNode : INode.t) : Scan :=
  match probe triggerNode with
  | Normal v =>
      {| triggerMetaData := v;
         triggerName := if hasTestId v testId
                        then Some (INode.name triggerNode)
                        else triggerName st |}
  | Throw _ => st
  end.

Definition noTriggerError : Exception :=
  NodeOperationError (getNode n) "No Test Trigger Node with matching ID found" itemIndex.

Definition getTriggerTestMetaData : Completion value :=
  let st := foldl scanStep scanStart testTriggerNodes in
  if bool_decide (triggerName st = None) || negb (truthy (triggerMetaData st))
  then Throw noTriggerError
  else Normal (triggerMetaData st).

(** *** What the specification asks of the scan *)

(** The ancestor's evaluation succeeds with an envelope carrying the
    target id. *)
Definition matching (triggerNode : INode.t) : bool :=
  match probe triggerNode with
  | Normal v => hasTestId v testId
  | Throw _ => false
  end.

(** The envelope of the last matching ancestor in traversal order. *)
Definition lastMatch : option value :=
  triggerNode ← last (List.filter matching testTriggerNodes);
  match probe triggerNode with
  | Normal v => Some v
  | Throw _ => None
  end.

(** The envelope of the last ancestor whose evaluation succeeded,
    matching or not; [v] when none did. *)
Definition lastProbedFrom (v : value) (nodes : list INode.t) : value :=
  foldl (λ v triggerNode,
           match probe triggerNode with
           | Normal v' => v'
           | Throw _ => v
           end) v nodes.

Definition lastProbed : value := lastProbedFrom JUndefined testTriggerNodes.

End Correlator.

(** ** Concrete inputs used below *)

(** The text [{"a":1}]. *)
Definition jsonTextA1 : string :=
  "{" ++ String JSON.dquote "a" ++ String JSON.dquote ":1}".

(** A host whose current node has the given ancestors and whose
    evaluator answers from a table ancestor name -> outcome; a name
    missing from the table has not executed, and evaluating against it
    throws. *)
Definition hostOf (parents : list INode.t) (outputs : list (string * Completion value))
  : IExecuteFunctions :=
  {| getNode := INode.mk "Unit Test Evaluation" "n8n-nodes-base.unitTest";
     getParentNodes := λ _, parents;
     evaluateExpression := λ expression _,
       match List.find (λ p, String.eqb (triggerExpression p.1) expression) outputs with
       | Some p => p.2
       | None => Throw (HostError "ExpressionError" "Referenced node is unexecuted")
       end |}.

Definition triggerA : INode.t := INode.mk "Trigger A" "n8n-nodes-base.unitTestTrigger".
Definition triggerB : INode.t := INode.mk "Trigger B" "n8n-nodes-base.unitTestTrigger".
Definition setNode : INode.t := INode.mk "Edit Fields" "n8n-nodes-base.set".

Definition envelopeOf (testId testRunName : string) : value :=
  metaObject {| pass := None; testId := Some testId;
                testRunName := Some testRunName;
                triggerInputData := Some (JObject ∅) |}.

(** Both triggers have run; only the first carries the id [T1]. *)
Definition hostTwoRan : IExecuteFunctions :=
  hostOf [triggerA; setNode; triggerB]
    [("Trigger A", Normal (envelopeOf "T1" "first"));
     ("Trigger B", Normal (envelopeOf "T2" "second"))].

(** The second trigger's item has no [_unitTest] property. *)
Definition hostSecondBare : IExecuteFunctions :=
  hostOf [triggerA; triggerB]
    [("Trigger A", Normal (envelopeOf "T1" "first"));
     ("Trigger B", Normal JUndefined)].

(** Only the second trigger has run, with the id [T1]. *)
Definition hostOneRan : IExecuteFunctions :=
  hostOf [triggerA; setNode; triggerB]
    [("Trigger B", Normal (envelopeOf "T1" "second"))].

(** No trigger has run. *)
Definition hostNoneRan : IExecuteFunctions :=
  hostOf [triggerA; setNode; triggerB] [].

(** ** Input batches *)

Section NodeInputsData.

(** [NodeConnectionType.Main] *)
Variable Main : string.

(** [NodeHelpers.getConnectionTypes(this.getNodeInputs())]: the
    connection kind of each input of the node, in order. *)
Variable connectionTypes : list string.

(** [INodeExecutionData] *)
Variable Item : Type.

(** [this.getInputData(i)]: a batch of items, [None] for [null] or
    [undefined], or an exception. *)
Variable getInputData : nat → Completion (option (list Item)).

(** What one round of the loop pushes:
    [this.getInputData(i) ?? []], or [[]] from the [catch]. *)
Definition inputBatch (i : nat) : list Item :=
  match getInputData i with
  | Normal (Some items) => items
  | Normal None => []
  | Throw _ => []
  end.

Definition getNodeInputsData : list (list Item) :=
  let returnData : list (list Item) := [] in
  let inputs := List.filter (λ type, String.eqb type Main) connectionTypes in
  foldl (λ returnData i, Array_push returnData (inputBatch i))
    returnData (seq 0 (length inputs)).

End NodeInputsData.

(** ** Reading the rows of a test run *)

(** The value of the last row whose key is [k]. *)
Definition lastValue (k : string) (rows : list KeyValue.t) : option string :=
  KeyValue.value <$> last (List.filter (λ kv, String.eqb (KeyValue.key kv) k) rows).

(** The rows that do not name the inherited [__proto__] accessor. *)
Definition ownRows (rows : list KeyValue.t) : list KeyValue.t :=
  List.filter (λ kv, negb (String.eqb (KeyValue.key kv) "__proto__")) rows.

(** A host with three inputs, the second an AI tool connection; reading
    the second main input fails. *)
Definition threeInputs : list string := ["main"; "ai_tool"; "main"].

Definition readInput (i : nat) : Completion (option (list value)) :=
  match i with
  | 0 => Normal (Some [JNumber 1; JNumber 2])
  | _ => Throw (HostError "ApplicationError" "Could not get input")
  end.

(** ** Envelopes stamped by the materializers *)

(** [envelope] is the [_unitTest] property of an item that one of the
    two materializers emitted for the id [testId]. *)
Definition stampedBy (JSON_parse : string → Completion value)
    (testId : string) (envelope : value) : Prop :=
  (∃ items out,
      out ∈ getReturnNodeJsonFromKeyValue (Some items) testId
      ∧ json out !! "_unitTest" = Some envelope)
  ∨ (∃ items outs out,
       getReturnNodeJsonFromJson JSON_parse (Some items) testId = Normal outs
       ∧ out ∈ outs
       ∧ json out !! "_unitTest" = Some envelope).

(** A host that evaluates one more expression than [hostTwoRan]: the
    one naming the ancestor that is no test trigger. *)
Definition hostTwoRanSetToo : IExecuteFunctions :=
  hostOf [triggerA; setNode; triggerB]
    [("Trigger A", Normal (envelopeOf "T1" "first"));
     ("Edit Fields", Normal (envelopeOf "T1" "set"));
     ("Trigger B", Normal (envelopeOf "T2" "second"))].

(** A test run, the envelope the key/value materializer stamps on it
    for the id [T1], and a host whose only test trigger produced it. *)
Definition exampleRun : RawKeyValueInputItems.t :=
  RawKeyValueInputItems.mk (Some "A") {| keyValueData := Some [KeyValue.mk "x" "1"] |}.

Definition exampleEnvelope : value :=
  JObject (<["testId" := JString "T1"]>
           (<["testRunName" := JString "A"]>
            {["triggerInputData" := JObject {["x" := JString "1"]}]})).

Definition hostMaterialized : IExecuteFunctions :=
  hostOf [setNode; triggerA] [("Trigger A", Normal exampleEnvelope)].

(** ** The two input modes side by side *)

(** A key/value run and a JSON entry describe the same test run: same
    name, and the JSON text parses to the object holding, under each
    key, the value of the last row with that key (rows named
    [__proto__] apart, which set nothing). *)
Definition sameRun (JSON_parse : string → Completion value)
    (kv : RawKeyValueInputItems.t) (j : RawJsonInput.t) : Prop :=
  RawKeyValueInputItems.testRunName kv = RawJsonInput.testRunName j
  ∧ ∃ rows data,
      keyValueData (RawKeyValueInputItems.testRun kv) = Some rows
      ∧ JSON_parse (RawJsonInput.jsonTestRun j) = Normal (JObject data)
      ∧ ∀ k, data !! k =
             if String.eqb k "__proto__" then None else JString <$> lastValue k rows.

(** The text [{"x":"1"}]. *)
Definition jsonTextX1 : string :=
  "{" ++ String JSON.dquote "x" ++ String JSON.dquote ":"
      ++ String JSON.dquote "1" ++ String JSON.dquote "}".

(** * Properties *)

(** ** JavaScript operators *)

Lemma eqString_true v s : eqString v s = true ↔ v = JString s.
Proof.
  destruct v; simpl; try (split; [discriminate | congruence]).
  rewrite String.eqb_eq. split; congruence.
Qed.

Lemma eqString_false v s : eqString v s = false ↔ v ≠ JString s.
Proof.
  rewrite <- eqString_true. destruct (eqString v s); split; congruence.
Qed.

(** An envelope that carries the target id is an object, hence truthy. *)
Lemma hasTestId_truthy v testId : hasTestId v testId = true → truthy v = true.
Proof.
  unfold hasTestId. destruct v; simpl; try discriminate; try reflexivity.
  unfold get. simpl. destruct (String.eqb "testId" "length") eqn:E; [discriminate E|].
  intros H. apply eqString_true in H.
  destruct s; [discriminate|reflexivity].
Qed.

(** ** Branch topology *)

(** C5: [nodeInputs] returns the two Main-type branches [pass] then
    [fail] when the [operation] parameter is the string
    [booleanInputComparison], and one Main-type branch without display
    name for every other value of [operation] (an absent one included). *)
Theorem nodeInputs_branches (Main : string) (parameters : gmap string value) :
  (get (JObject parameters) "operation" = JString "booleanInputComparison" →
   nodeInputs Main parameters =
     [Branch.mk Main (Some "pass") None; Branch.mk Main (Some "fail") None])
  ∧ (get (JObject parameters) "operation" ≠ JString "booleanInputComparison" →
     nodeInputs Main parameters = [Branch.mk Main None None]).
Proof.
  unfold nodeInputs. split; intros H.
  - apply eqString_true in H. rewrite H. reflexivity.
  - apply eqString_false in H. rewrite H. reflexivity.
Qed.

Lemma nodeInputs_branches_witness :
  nodeInputs "main" {["operation" := JString "booleanInputComparison"]} =
    [Branch.mk "main" (Some "pass") None; Branch.mk "main" (Some "fail") None]
  ∧ nodeInputs "main" {["operation" := JString "throwError"]} =
    [Branch.mk "main" None None]
  ∧ nodeInputs "main" ∅ = [Branch.mk "main" None None].
Proof.
  split; [|split].
  - apply (proj1 (nodeInputs_branches "main" _)). reflexivity.
  - apply (proj2 (nodeInputs_branches "main" _)). vm_compute. discriminate.
  - apply (proj2 (nodeInputs_branches "main" ∅)). vm_compute. discriminate.
Defined.

(** The branch list in terms of what the two reads of the code yield. *)
Lemma nodeOutputs_of_inputs (Main : string) (parameters : gmap string value)
    (cleanUpDefault failDefault : bool) (cleanUp onFail : Toggle) :
  cleanUpBranchInput parameters = toggleValue cleanUp →
  failBranchInput parameters = toggleValue onFail →
  nodeOutputs Main parameters cleanUpDefault failDefault =
    outputBranches Main (resolve cleanUp cleanUpDefault) (resolve onFail failDefault).
Proof.
  intros Hc Hf. unfold nodeOutputs. rewrite Hc, Hf.
  destruct cleanUp as [|[]], onFail as [|[]], cleanUpDefault, failDefault;
    reflexivity.
Qed.

(** What the code reads for a property of [additionalFields]. *)
Lemma additionalFields_read (parameters fields : gmap string value) (k : string) :
  parameters !! "additionalFields" = Some (JObject fields) →
  getOpt (get (JObject parameters) "additionalFields") k
    = default JUndefined (fields !! k).
Proof. intros H. unfold get. simpl. rewrite H. reflexivity. Qed.

Lemma toggleAt_read (parameters : gmap string value) (k : string) (t : Toggle) :
  toggleAt parameters k = Some t →
  getOpt (get (JObject parameters) "additionalFields") k = toggleValue t.
Proof.
  unfold toggleAt, get. simpl.
  destruct (parameters !! "additionalFields") as [[| | | | | |fields]|]; simpl;
    try discriminate; try (injection 1 as <-; reflexivity).
  unfold get. simpl.
  destruct (fields !! k) as [[]|]; simpl;
    try discriminate; injection 1 as <-; reflexivity.
Qed.

(** C4: for every parameter bag in which each of the toggles
    [additionalFields.isCleanUpBranchEnabled] and
    [additionalFields.isFailBranchEnabled] is explicitly true,
    explicitly false or unset, and for every pair of defaults,
    [nodeOutputs] returns the branch list of the resolved toggles (an
    unset toggle resolving to its default): [Clean Up] first when its
    toggle resolves to true, [On Fail] with category [error] next when
    its toggle resolves to true, and nothing else. *)
Theorem nodeOutputs_truth_table (Main : string) (parameters : gmap string value)
    (cleanUpDefault failDefault : bool) (cleanUp onFail : Toggle) :
  toggleAt parameters "isCleanUpBranchEnabled" = Some cleanUp →
  toggleAt parameters "isFailBranchEnabled" = Some onFail →
  nodeOutputs Main parameters cleanUpDefault failDefault =
    ((if resolve cleanUp cleanUpDefault
      then [Branch.mk Main (Some "Clean Up") None] else [])
     ++ (if resolve onFail failDefault
         then [Branch.mk Main (Some "On Fail") (Some "error")] else []))%list.
Proof.
  intros Hc Hf.
  apply (nodeOutputs_of_inputs Main parameters _ _ cleanUp onFail).
  - now apply toggleAt_read.
  - now apply toggleAt_read.
Qed.

Lemma nodeOutputs_truth_table_witness :
  (* explicit true, unset: the defaults of the node *)
  nodeOutputs "main"
    {["additionalFields" := JObject {["isCleanUpBranchEnabled" := JBool true]}]}
    cleanUpBranchDefault failBranchDefault
  = [Branch.mk "main" (Some "Clean Up") None;
     Branch.mk "main" (Some "On Fail") (Some "error")]
  (* both explicitly false, against defaults of true *)
  ∧ nodeOutputs "main"
      {["additionalFields" :=
          JObject (<["isCleanUpBranchEnabled" := JBool false]>
                   {["isFailBranchEnabled" := JBool false]})]}
      true true
    = []
  (* explicit false, explicit true, against the opposite defaults *)
  ∧ nodeOutputs "main"
      {["additionalFields" :=
          JObject (<["isCleanUpBranchEnabled" := JBool false]>
                   {["isFailBranchEnabled" := JBool true]})]}
      true false
    = [Branch.mk "main" (Some "On Fail") (Some "error")]
  (* no additionalFields at all: both unset *)
  ∧ nodeOutputs "main" {["operation" := JString "booleanInputComparison"]} true false
    = [Branch.mk "main" (Some "Clean Up") None].
Proof.
  split; [|split; [|split]].
  - apply (nodeOutputs_truth_table "main" _ cleanUpBranchDefault failBranchDefault
             (Explicit true) Unset); reflexivity.
  - apply (nodeOutputs_truth_table "main" _ true true
             (Explicit false) (Explicit false)); reflexivity.
  - apply (nodeOutputs_truth_table "main" _ true false
             (Explicit false) (Explicit true)); reflexivity.
  - apply (nodeOutputs_truth_table "main" _ true false Unset Unset); reflexivity.
Defined.

(** A parameter bag without [additionalFields] leaves both toggles unset. *)
Lemma nodeOutputs_no_additionalFields (Main : string) (parameters : gmap string value)
    (cleanUpDefault failDefault : bool) :
  parameters !! "additionalFields" = None →
  nodeOutputs Main parameters cleanUpDefault failDefault =
    outputBranches Main cleanUpDefault failDefault.
Proof.
  intros H. unfold nodeOutputs, cleanUpBranchInput, failBranchInput, get.
  simpl. rewrite H. destruct cleanUpDefault, failDefault; reflexivity.
Qed.

(** ** Mapping with a callback that may throw *)

Lemma lookup_map {A B} (f : A → B) (l : list A) (i : nat) :
  map f l !! i = f <$> (l !! i).
Proof.
  revert i. induction l as [|a l IH]; intros [|i]; simpl; auto.
Qed.

Lemma Array_map_cons {A B} (f : A → Completion B) (a : A) (l : list A) :
  Array_map f (a :: l) =
    match f a with
    | Normal b =>
        match Array_map f l with
        | Normal bs => Normal (b :: bs)
        | Throw e => Throw e
        end
    | Throw e => Throw e
    end.
Proof. simpl. destruct (f a); reflexivity. Qed.

(** When every call of the callback returns, so does the map, with the
    results in order. *)
Lemma Array_map_Normal {A B} (f : A → Completion B) (l : list A) :
  (∀ x, x ∈ l → ∃ y, f x = Normal y) →
  ∃ out, Array_map f l = Normal out
         ∧ ∀ i x, l !! i = Some x → ∃ y, f x = Normal y ∧ out !! i = Some y.
Proof.
  induction l as [|a l IH]; intros Hall.
  - exists []. split; [reflexivity|]. intros i x H. destruct i; discriminate H.
  - destruct (Hall a) as [b Hb]; [left|].
    destruct IH as (out & Hout & Hlook).
    { intros x Hx. apply Hall. now right. }
    exists (b :: out). split.
    + rewrite Array_map_cons, Hb, Hout. reflexivity.
    + intros [|i] x H; simpl in H.
      * injection H as <-. eauto.
      * apply Hlook, H.
Qed.

(** When some call throws, the map throws what the first such call
    threw. *)
Lemma Array_map_Throw {A B} (f : A → Completion B) (l : list A) :
  (∃ x, x ∈ l ∧ ∃ e, f x = Throw e) →
  ∃ i x e, l !! i = Some x ∧ f x = Throw e
           ∧ (∀ j x', j < i → l !! j = Some x' → ∃ y, f x' = Normal y)
           ∧ Array_map f l = Throw e.
Proof.
  induction l as [|a l IH]; intros (x & Hin & e & He).
  - inversion Hin.
  - destruct (f a) as [b|e0] eqn:Ha.
    + destruct IH as (i & x' & e' & Hi & Hx' & Hbefore & Hmap).
      { inversion Hin; subst; [congruence|eauto]. }
      exists (S i), x', e'. repeat split; auto.
      * intros [|j] y Hj Hy; simpl in Hy.
        -- injection Hy as <-. eauto.
        -- apply (Hbefore j); [lia|assumption].
      * rewrite Array_map_cons, Ha, Hmap. reflexivity.
    + exists 0, a, e0. repeat split; auto.
      * intros j y Hj. lia.
      * rewrite Array_map_cons, Ha. reflexivity.
Qed.

(** ** The metadata envelope as an object *)

Lemma metaObject_testId m :
  get (metaObject m) "testId" = from_option JString JUndefined (testId m).
Proof. destruct m as [[?|] [?|] [?|] [?|]]; reflexivity. Qed.

Lemma metaObject_testRunName m :
  get (metaObject m) "testRunName" = from_option JString JUndefined (testRunName m).
Proof. destruct m as [[?|] [?|] [?|] [?|]]; reflexivity. Qed.

Lemma metaObject_triggerInputData m :
  get (metaObject m) "triggerInputData" = default JUndefined (triggerInputData m).
Proof. destruct m as [[?|] [?|] [?|] [?|]]; reflexivity. Qed.

(** ** JSON materializer *)

Section JsonMaterializerFacts.

Variable JSON_parse : string → Completion value.

Lemma jsonItem_Throw testId item e :
  JSON_parse (RawJsonInput.jsonTestRun item) = Throw e →
  jsonItem JSON_parse testId item = Throw e.
Proof. intros H. unfold jsonItem. rewrite H. reflexivity. Qed.

Lemma jsonItem_Normal testId item parsedJson :
  JSON_parse (RawJsonInput.jsonTestRun item) = Normal parsedJson →
  jsonItem JSON_parse testId item =
    Normal {| json :=
      <["_unitTest" := metaObject {|
           pass := None;
           testId := Some testId;
           testRunName := Some (orString (RawJsonInput.testRunName item) "unnamed");
           triggerInputData := Some parsedJson |}]> (entries parsedJson) |}.
Proof. intros H. unfold jsonItem. rewrite H. reflexivity. Qed.

(** The callback throws exactly when the parser does. *)
Lemma jsonItem_Throw_inv testId item e :
  jsonItem JSON_parse testId item = Throw e →
  JSON_parse (RawJsonInput.jsonTestRun item) = Throw e.
Proof.
  unfold jsonItem. destruct (JSON_parse _); simpl; [discriminate|congruence].
Qed.

End JsonMaterializerFacts.

(** C6: when some entry's [jsonTestRun] does not parse, the JSON
    materializer throws, and what it throws is the very exception
    [JSON.parse] raised on the first such entry (every entry before it
    parsed); no list of items is returned. *)
Theorem getReturnNodeJsonFromJson_parse_failure
    (JSON_parse : string → Completion value)
    (items : list RawJsonInput.t) (testId : string) :
  (∃ item, item ∈ items ∧ ∃ e, JSON_parse (RawJsonInput.jsonTestRun item) = Throw e) →
  ∃ i item e,
    items !! i = Some item
    ∧ JSON_parse (RawJsonInput.jsonTestRun item) = Throw e
    ∧ (∀ j item', j < i → items !! j = Some item' →
         ∃ v, JSON_parse (RawJsonInput.jsonTestRun item') = Normal v)
    ∧ getReturnNodeJsonFromJson JSON_parse (Some items) testId = Throw e.
Proof.
  intros (item & Hin & e & He).
  destruct (Array_map_Throw (jsonItem JSON_parse testId) items)
    as (i & item' & e' & Hi & Hthrow & Hbefore & Hmap).
  { exists item. split; [assumption|]. exists e. now apply jsonItem_Throw. }
  exists i, item', e'. repeat split; auto.
  - now apply jsonItem_Throw_inv in Hthrow.
  - intros j x Hj Hx. destruct (Hbefore j x Hj Hx) as [y Hy].
    unfold jsonItem in Hy.
    destruct (JSON_parse (RawJsonInput.jsonTestRun x)) as [v|]; [eauto|].
    discriminate Hy.
Qed.

Lemma getReturnNodeJsonFromJson_parse_failure_witness :
  ∃ i item e,
    [RawJsonInput.mk None jsonTextA1; RawJsonInput.mk (Some "B") "{a:1}"] !! i = Some item
    ∧ JSON.parse (RawJsonInput.jsonTestRun item) = Throw e
    ∧ (∀ j item', j < i →
         [RawJsonInput.mk None jsonTextA1; RawJsonInput.mk (Some "B") "{a:1}"] !! j
           = Some item' →
         ∃ v, JSON.parse (RawJsonInput.jsonTestRun item') = Normal v)
    ∧ getReturnNodeJsonFromJson JSON.parse
        (Some [RawJsonInput.mk None jsonTextA1; RawJsonInput.mk (Some "B") "{a:1}"])
        "T2" = Throw e.
Proof.
  apply getReturnNodeJsonFromJson_parse_failure.
  exists (RawJsonInput.mk (Some "B") "{a:1}"). split.
  - right. left.
  - exists (SyntaxError "Unexpected token in JSON"). vm_compute. reflexivity.
Defined.

(** C8: on the single entry [{jsonTestRun: '{"a":1}'}], without a run
    name, and test id [T2], the JSON materializer returns one item; its
    [_unitTest] envelope has [testRunName] equal to [unnamed] and
    [triggerInputData] equal to the parsed object [{a:1}] (and [testId]
    equal to [T2]). *)
Theorem getReturnNodeJsonFromJson_example (JSON_parse : string → Completion value) :
  JSON_parse jsonTextA1 = Normal (JObject {["a" := JNumber 1]}) →
  ∃ item envelope,
    getReturnNodeJsonFromJson JSON_parse (Some [RawJsonInput.mk None jsonTextA1]) "T2"
      = Normal [item]
    ∧ json item = <["_unitTest" := envelope]> {["a" := JNumber 1]}
    ∧ envelope = JObject (<["testId" := JString "T2"]>
                          (<["testRunName" := JString "unnamed"]>
                           {["triggerInputData" := JObject {["a" := JNumber 1]}]}))
    ∧ get envelope "testRunName" = JString "unnamed"
    ∧ get envelope "triggerInputData" = JObject {["a" := JNumber 1]}.
Proof.
  intros Hparse. eexists _, _. split; [|split; [|split; [|split]]].
  - unfold getReturnNodeJsonFromJson. rewrite Array_map_cons.
    rewrite (jsonItem_Normal JSON_parse "T2" (RawJsonInput.mk None jsonTextA1) _ Hparse).
    reflexivity.
  - reflexivity.
  - vm_compute. reflexivity.
  - reflexivity.
  - reflexivity.
Qed.

Lemma getReturnNodeJsonFromJson_example_witness :
  JSON.parse jsonTextA1 = Normal (JObject {["a" := JNumber 1]})
  ∧ ∃ item envelope,
      getReturnNodeJsonFromJson JSON.parse (Some [RawJsonInput.mk None jsonTextA1]) "T2"
        = Normal [item]
      ∧ json item = <["_unitTest" := envelope]> {["a" := JNumber 1]}
      ∧ envelope = JObject (<["testId" := JString "T2"]>
                            (<["testRunName" := JString "unnamed"]>
                             {["triggerInputData" := JObject {["a" := JNumber 1]}]}))
      ∧ get envelope "testRunName" = JString "unnamed"
      ∧ get envelope "triggerInputData" = JObject {["a" := JNumber 1]}.
Proof.
  split; [vm_compute; reflexivity|].
  apply (getReturnNodeJsonFromJson_example JSON.parse). vm_compute. reflexivity.
Defined.

(** C9: given [undefined] for their input list, both materializers
    return the empty sequence, whatever the test id. *)
Theorem materializers_undefined_input
    (JSON_parse : string → Completion value) (testId : string) :
  getReturnNodeJsonFromKeyValue None testId = []
  ∧ getReturnNodeJsonFromJson JSON_parse None testId = Normal [].
Proof. split; reflexivity. Qed.

(** ** Key/value materializer *)

(** The guard of the callback looks at the properties of [testRun], not
    at the rows. *)
Lemma Object_keys_empty r : length (Object_keys r) = 0 ↔ keyValueData r = None.
Proof.
  unfold Object_keys. destruct (keyValueData r); simpl; split; congruence.
Qed.

Lemma keyValueItem_no_rows_property testId item :
  keyValueData (RawKeyValueInputItems.testRun item) = None →
  keyValueItem testId item = {| json := ∅ |}.
Proof. intros H. unfold keyValueItem, Object_keys. rewrite H. reflexivity. Qed.

Lemma keyValueItem_rows testId item rows :
  keyValueData (RawKeyValueInputItems.testRun item) = Some rows →
  keyValueItem testId item =
    let jsonObject :=
      foldl (λ o kv, assign o (KeyValue.key kv) (KeyValue.value kv)) ∅ rows in
    {| json :=
        <["_unitTest" := metaObject {|
             pass := None;
             testId := Some testId;
             testRunName :=
               Some (orString (RawKeyValueInputItems.testRunName item) "unnamed");
             triggerInputData := Some (JObject (JString <$> jsonObject)) |}]>
          (JString <$> jsonObject) |}.
Proof. intros H. unfold keyValueItem, Object_keys. rewrite H. reflexivity. Qed.

(** C7: on the single row [{testRunName: A, testRun: {keyValueData:
    [{key: x, value: 1}]}}] (all strings) and test id [T1] the key/value
    materializer returns exactly one item,
    [{json: {x: 1, _unitTest: {testId: T1, testRunName: A,
    triggerInputData: {x: 1}}}}]. *)
Theorem getReturnNodeJsonFromKeyValue_example :
  getReturnNodeJsonFromKeyValue
    (Some [RawKeyValueInputItems.mk (Some "A")
             {| keyValueData := Some [KeyValue.mk "x" "1"] |}])
    "T1"
  = [ {| json :=
          <["x" := JString "1"]>
            {["_unitTest" :=
                JObject (<["testId" := JString "T1"]>
                         (<["testRunName" := JString "A"]>
                          {["triggerInputData" := JObject {["x" := JString "1"]}]}))]}
      |} ].
Proof. vm_compute. reflexivity. Qed.

(** C2, as stated, fails: a test run whose [keyValueData] is the empty
    array does get the [_unitTest] envelope. *)
Lemma getReturnNodeJsonFromKeyValue_empty_rows_enveloped :
  getReturnNodeJsonFromKeyValue
    (Some [RawKeyValueInputItems.mk (Some "A") {| keyValueData := Some [] |}]) "T1"
  ≠ [ {| json := ∅ |} ]
  ∧ ∃ item,
      getReturnNodeJsonFromKeyValue
        (Some [RawKeyValueInputItems.mk (Some "A") {| keyValueData := Some [] |}]) "T1"
      = [item]
      ∧ json item !! "_unitTest" =
          Some (JObject (<["testId" := JString "T1"]>
                         (<["testRunName" := JString "A"]>
                          {["triggerInputData" := JObject ∅]}))).
Proof.
  split.
  - intros H. apply (f_equal (λ out, (json <$> out !! 0) ≫= (.!! "_unitTest"))) in H.
    vm_compute in H. discriminate H.
  - eexists. split; [reflexivity|]. vm_compute. reflexivity.
Qed.

(** C2, amended: the entry of a test run whose [testRun] object has no
    property at all ([keyValueData] absent) yields exactly the item
    [{json: {}}], without envelope; the entry of a test run whose
    [keyValueData] is present and empty yields the item whose only
    property is the [_unitTest] envelope, with empty
    [triggerInputData]. *)
Theorem getReturnNodeJsonFromKeyValue_empty_testRun
    (items : list RawKeyValueInputItems.t) (testId : string)
    (i : nat) (item : RawKeyValueInputItems.t) :
  items !! i = Some item →
  (keyValueData (RawKeyValueInputItems.testRun item) = None →
   getReturnNodeJsonFromKeyValue (Some items) testId !! i = Some {| json := ∅ |})
  ∧ (keyValueData (RawKeyValueInputItems.testRun item) = Some [] →
     getReturnNodeJsonFromKeyValue (Some items) testId !! i =
       Some {| json :=
         {["_unitTest" := metaObject {|
              pass := None;
              testId := Some testId;
              testRunName :=
                Some (orString (RawKeyValueInputItems.testRunName item) "unnamed");
              triggerInputData := Some (JObject ∅) |}]} |}).
Proof.
  intros Hi. unfold getReturnNodeJsonFromKeyValue. rewrite lookup_map, Hi. simpl.
  split; intros H.
  - now rewrite keyValueItem_no_rows_property.
  - rewrite (keyValueItem_rows _ _ _ H). reflexivity.
Qed.

Lemma getReturnNodeJsonFromKeyValue_empty_testRun_witness :
  getReturnNodeJsonFromKeyValue
    (Some [RawKeyValueInputItems.mk (Some "A")
             {| keyValueData := Some [KeyValue.mk "x" "1"] |};
           RawKeyValueInputItems.mk (Some "B") {| keyValueData := None |}])
    "T1" !! 1 = Some {| json := ∅ |}.
Proof.
  apply (getReturnNodeJsonFromKeyValue_empty_testRun
           [RawKeyValueInputItems.mk (Some "A")
              {| keyValueData := Some [KeyValue.mk "x" "1"] |};
            RawKeyValueInputItems.mk (Some "B") {| keyValueData := None |}]
           "T1" 1 (RawKeyValueInputItems.mk (Some "B") {| keyValueData := None |})
           eq_refl).
  reflexivity.
Defined.

(** ** The fallback run name *)

Lemma map_insert_same {A B} (f : A → B) (l : list A) (i : nat) (a b : A) :
  l !! i = Some a → f a = f b → map f (<[i := b]> l) = map f l.
Proof.
  revert i. induction l as [|c l IH]; intros [|i] Hi Hf; simpl in *; try discriminate.
  - injection Hi as ->. now rewrite Hf.
  - f_equal. now apply IH.
Qed.

Lemma Array_map_insert_same {A B} (f : A → Completion B) (l : list A) (i : nat) (a b : A) :
  l !! i = Some a → f a = f b → Array_map f (<[i := b]> l) = Array_map f l.
Proof.
  revert i. induction l as [|c l IH]; intros [|i] Hi Hf; try discriminate.
  - injection Hi as ->. simpl. now rewrite Hf.
  - simpl in Hi. change (<[S i := b]> (c :: l)) with (c :: <[i := b]> l).
    rewrite !Array_map_cons, (IH i Hi Hf). reflexivity.
Qed.

(** C10: in both materializers a test run whose [testRunName] is the
    empty string is treated exactly as one whose name is omitted, and
    the envelope stamped on its item carries the run name [unnamed]. *)
Theorem empty_testRunName_is_unnamed
    (JSON_parse : string → Completion value) (testId : string) :
  (∀ (items : list RawKeyValueInputItems.t) (i : nat) (run : TestRun),
     items !! i = Some (RawKeyValueInputItems.mk (Some EmptyString) run) →
     getReturnNodeJsonFromKeyValue (Some items) testId =
       getReturnNodeJsonFromKeyValue
         (Some (<[i := RawKeyValueInputItems.mk None run]> items)) testId
     ∧ (∀ rows, keyValueData run = Some rows →
        ∃ item envelope,
          getReturnNodeJsonFromKeyValue (Some items) testId !! i = Some item
          ∧ json item !! "_unitTest" = Some envelope
          ∧ get envelope "testRunName" = JString "unnamed"))
  ∧ (∀ (items : list RawJsonInput.t) (i : nat) (text : string),
       items !! i = Some (RawJsonInput.mk (Some EmptyString) text) →
       getReturnNodeJsonFromJson JSON_parse (Some items) testId =
         getReturnNodeJsonFromJson JSON_parse
           (Some (<[i := RawJsonInput.mk None text]> items)) testId
       ∧ ((∀ x, x ∈ items → ∃ v, JSON_parse (RawJsonInput.jsonTestRun x) = Normal v) →
          ∃ out item envelope,
            getReturnNodeJsonFromJson JSON_parse (Some items) testId = Normal out
            ∧ out !! i = Some item
            ∧ json item !! "_unitTest" = Some envelope
            ∧ get envelope "testRunName" = JString "unnamed")).
Proof.
  split.
  - intros items i run Hi. split.
    + unfold getReturnNodeJsonFromKeyValue. symmetry.
      now apply (map_insert_same _ _ _ _ _ Hi).
    + intros rows Hrows. eexists _, _. split; [|split].
      * unfold getReturnNodeJsonFromKeyValue. rewrite lookup_map, Hi. simpl.
        rewrite (keyValueItem_rows testId
                   (RawKeyValueInputItems.mk (Some EmptyString) run) rows Hrows).
        reflexivity.
      * simpl. apply lookup_insert_eq.
      * rewrite metaObject_testRunName. reflexivity.
  - intros items i text Hi. split.
    + unfold getReturnNodeJsonFromJson. symmetry.
      now apply (Array_map_insert_same _ _ _ _ _ Hi).
    + intros Hall.
      destruct (Array_map_Normal (jsonItem JSON_parse testId) items)
        as (out & Hout & Hlook).
      { intros x Hx. destruct (Hall x Hx) as [v Hv].
        rewrite (jsonItem_Normal _ _ _ _ Hv). eauto. }
      destruct (Hlook i _ Hi) as (item & Hitem & Hi').
      destruct (Hall _ (list_elem_of_lookup_2 _ _ _ Hi)) as [v Hv].
      rewrite (jsonItem_Normal _ _ _ _ Hv) in Hitem. injection Hitem as <-.
      eexists out, _, _. split; [exact Hout|]. split; [exact Hi'|]. split.
      * simpl. apply lookup_insert_eq.
      * rewrite metaObject_testRunName. reflexivity.
Qed.

Lemma empty_testRunName_is_unnamed_witness :
  (∃ item envelope,
     getReturnNodeJsonFromKeyValue
       (Some [RawKeyValueInputItems.mk (Some EmptyString)
                {| keyValueData := Some [KeyValue.mk "x" "1"] |}]) "T1" !! 0 = Some item
     ∧ json item !! "_unitTest" = Some envelope
     ∧ get envelope "testRunName" = JString "unnamed")
  ∧ (∃ out item envelope,
       getReturnNodeJsonFromJson JSON.parse
         (Some [RawJsonInput.mk (Some EmptyString) jsonTextA1]) "T2" = Normal out
       ∧ out !! 0 = Some item
       ∧ json item !! "_unitTest" = Some envelope
       ∧ get envelope "testRunName" = JString "unnamed").
Proof.
  split.
  - apply (proj2 (proj1 (empty_testRunName_is_unnamed JSON.parse "T1")
             [RawKeyValueInputItems.mk (Some EmptyString)
                {| keyValueData := Some [KeyValue.mk "x" "1"] |}]
             0 {| keyValueData := Some [KeyValue.mk "x" "1"] |} eq_refl)
           [KeyValue.mk "x" "1"] eq_refl).
  - apply (proj2 (proj2 (empty_testRunName_is_unnamed JSON.parse "T2")
             [RawJsonInput.mk (Some EmptyString) jsonTextA1] 0 jsonTextA1 eq_refl)).
    intros x Hx. exists (JObject {["a" := JNumber 1]}).
    inversion Hx as [|? ? ? Hx']; subst; [vm_compute; reflexivity|inversion Hx'].
Defined.

(** ** Trigger correlator *)

Section CorrelatorFacts.

Variable n : IExecuteFunctions.
Variable testId : string.
Variable itemIndex : Z.

(** What the loop leaves in its two variables: the envelope is the one
    read last, whether or not it matched; the name is set as soon as
    some ancestor matched. *)
Lemma scan_fold (nodes : list INode.t) (st : Scan) :
  triggerMetaData (foldl (scanStep n testId itemIndex) st nodes)
    = lastProbedFrom n itemIndex (triggerMetaData st) nodes
  ∧ bool_decide (triggerName (foldl (scanStep n testId itemIndex) st nodes) = None)
    = bool_decide (triggerName st = None)
      && negb (existsb (matching n testId itemIndex) nodes).
Proof.
  revert st. induction nodes as [|a nodes IH]; intros st; simpl.
  - split; [reflexivity|]. now rewrite andb_true_r.
  - destruct (IH (scanStep n testId itemIndex st a)) as [-> ->]. clear IH.
    unfold scanStep, matching, lastProbedFrom. simpl.
    destruct (probe n itemIndex a) as [v|e]; simpl; [|split; reflexivity].
    split; [reflexivity|].
    destruct (hasTestId v testId); simpl; [|reflexivity].
    now rewrite andb_false_r.
Qed.

(** The correlator in closed form. *)
Lemma getTriggerTestMetaData_closed_form :
  getTriggerTestMetaData n testId itemIndex =
    if existsb (matching n testId itemIndex) (testTriggerNodes n)
       && truthy (lastProbed n itemIndex)
    then Normal (lastProbed n itemIndex)
    else Throw (noTriggerError n itemIndex).
Proof.
  unfold getTriggerTestMetaData, lastProbed.
  destruct (scan_fold (testTriggerNodes n) scanStart) as [-> ->]. simpl.
  destruct (existsb (matching n testId itemIndex) (testTriggerNodes n)); simpl;
    [|reflexivity].
  destruct (truthy _); reflexivity.
Qed.

Lemma existsb_matching_false (nodes : list INode.t) :
  (∀ triggerNode v, triggerNode ∈ nodes →
     probe n itemIndex triggerNode = Normal v → hasTestId v testId = false) →
  existsb (matching n testId itemIndex) nodes = false.
Proof.
  induction nodes as [|a nodes IH]; intros H; simpl; [reflexivity|].
  rewrite IH by (intros t v Ht; apply H; now right).
  rewrite orb_false_r. unfold matching.
  destruct (probe n itemIndex a) as [v|e] eqn:Ha; [|reflexivity].
  apply (H a v); [left|exact Ha].
Qed.

(** When every ancestor that has executed carries the target id (the
    situation the code's comments assume: one test trigger runs per
    execution), the last envelope read is the last matching one. *)
Lemma lastProbed_lastMatch (nodes : list INode.t) (v0 v : value) :
  (∀ triggerNode v', triggerNode ∈ nodes →
     probe n itemIndex triggerNode = Normal v' → hasTestId v' testId = true) →
  (triggerNode ← last (List.filter (matching n testId itemIndex) nodes);
   match probe n itemIndex triggerNode with
   | Normal v => Some v
   | Throw _ => None
   end) = Some v →
  lastProbedFrom n itemIndex v0 nodes = v
  ∧ existsb (matching n testId itemIndex) nodes = true
  ∧ hasTestId v testId = true.
Proof.
  induction nodes as [|x l IH] using rev_ind; intros Hall Hlast.
  - discriminate Hlast.
  - unfold lastProbedFrom in *. rewrite foldl_app. simpl.
    rewrite List.filter_app, existsb_app in *. simpl in *.
    unfold matching at 2 in Hlast. unfold matching at 2.
    destruct (probe n itemIndex x) as [v'|e] eqn:Hx.
    + assert (Hv' : hasTestId v' testId = true).
      { apply (Hall x v'); [|exact Hx]. apply elem_of_app. right. left. }
      rewrite Hv' in *. rewrite last_snoc in Hlast. simpl in Hlast.
      rewrite Hx in Hlast. injection Hlast as <-.
      rewrite orb_true_r. auto.
    + rewrite app_nil_r in Hlast. simpl. rewrite orb_false_r.
      apply IH; [|exact Hlast].
      intros t w Ht. apply Hall. apply elem_of_app. now left.
Qed.

Lemma getTriggerTestMetaData_all_probed_match (v : value) :
  (∀ triggerNode v', triggerNode ∈ testTriggerNodes n →
     probe n itemIndex triggerNode = Normal v' → hasTestId v' testId = true) →
  lastMatch n testId itemIndex = Some v →
  getTriggerTestMetaData n testId itemIndex = Normal v.
Proof.
  intros Hall Hlast.
  destruct (lastProbed_lastMatch (testTriggerNodes n) JUndefined v Hall Hlast)
    as (Hv & Hex & Hid).
  rewrite getTriggerTestMetaData_closed_form. unfold lastProbed.
  rewrite Hv, Hex, (hasTestId_truthy _ _ Hid). reflexivity.
Qed.

End CorrelatorFacts.

(** C3: when no ancestor trigger yields an envelope whose [testId] is
    the target -- in particular when every evaluation throws -- the
    correlator throws the operational error [No Test Trigger Node with
    matching ID found] for the current node, carrying the item index;
    and whatever the evaluations throw, that error is the only thing the
    correlator ever throws. *)
Theorem getTriggerTestMetaData_no_match
    (n : IExecuteFunctions) (testId : string) (itemIndex : Z) :
  ((∀ triggerNode v, triggerNode ∈ testTriggerNodes n →
      probe n itemIndex triggerNode = Normal v → hasTestId v testId = false) →
   getTriggerTestMetaData n testId itemIndex =
     Throw (NodeOperationError (getNode n)
              "No Test Trigger Node with matching ID found" itemIndex))
  ∧ ((∀ triggerNode, triggerNode ∈ testTriggerNodes n →
        ∃ e, probe n itemIndex triggerNode = Throw e) →
     getTriggerTestMetaData n testId itemIndex =
       Throw (NodeOperationError (getNode n)
                "No Test Trigger Node with matching ID found" itemIndex))
  ∧ (∀ e, getTriggerTestMetaData n testId itemIndex = Throw e →
          e = NodeOperationError (getNode n)
                "No Test Trigger Node with matching ID found" itemIndex).
Proof.
  rewrite getTriggerTestMetaData_closed_form.
  assert (Hnone : (∀ triggerNode v, triggerNode ∈ testTriggerNodes n →
                     probe n itemIndex triggerNode = Normal v →
                     hasTestId v testId = false) →
                  (if existsb (matching n testId itemIndex) (testTriggerNodes n)
                      && truthy (lastProbed n itemIndex)
                   then Normal (lastProbed n itemIndex)
                   else Throw (noTriggerError n itemIndex)) =
                  Throw (noTriggerError n itemIndex)).
  { intros H. now rewrite (existsb_matching_false n testId itemIndex _ H). }
  split; [exact Hnone|]. split.
  - intros Hthrow. apply Hnone. intros t v Ht Hv.
    destruct (Hthrow t Ht) as [e He]. congruence.
  - intros e. destruct (_ && _); [discriminate|]. now injection 1 as <-.
Qed.

Lemma getTriggerTestMetaData_no_match_witness :
  getTriggerTestMetaData hostNoneRan "T1" 3 =
    Throw (NodeOperationError (INode.mk "Unit Test Evaluation" "n8n-nodes-base.unitTest")
             "No Test Trigger Node with matching ID found" 3)
  ∧ getTriggerTestMetaData hostTwoRan "T9" 3 =
    Throw (NodeOperationError (INode.mk "Unit Test Evaluation" "n8n-nodes-base.unitTest")
             "No Test Trigger Node with matching ID found" 3).
Proof.
  split.
  - apply (proj1 (proj2 (getTriggerTestMetaData_no_match hostNoneRan "T1" 3))).
    intros t Ht. exists (HostError "ExpressionError" "Referenced node is unexecuted").
    reflexivity.
  - apply (proj1 (getTriggerTestMetaData_no_match hostTwoRan "T9" 3)).
    intros t v Ht Hv. vm_compute in Ht.
    inversion Ht as [|? ? ? Ht']; subst;
      [|inversion Ht' as [|? ? ? Ht'']; subst; [|inversion Ht'']];
      vm_compute in Hv; injection Hv as <-; reflexivity.
Defined.

(** C1: the claim does not hold of the code.  With two test triggers that both
    ran, the first carrying the target id [T1] and the second the id
    [T2], the last matching ancestor is the first trigger, yet the
    correlator returns the envelope of the second, whose [testId]
    differs from the target. *)
Theorem getTriggerTestMetaData_returns_other_envelope :
  lastMatch hostTwoRan "T1" 0 = Some (envelopeOf "T1" "first")
  ∧ getTriggerTestMetaData hostTwoRan "T1" 0 = Normal (envelopeOf "T2" "second")
  ∧ hasTestId (envelopeOf "T2" "second") "T1" = false
  ∧ get (envelopeOf "T2" "second") "testId" = JString "T2".
Proof. repeat split; vm_compute; reflexivity. Qed.

(** The same overwrite makes the call fail although an ancestor
    matches: the matching trigger is followed by one whose item has no
    envelope. *)
Lemma getTriggerTestMetaData_fails_despite_match :
  lastMatch hostSecondBare "T1" 0 = Some (envelopeOf "T1" "first")
  ∧ getTriggerTestMetaData hostSecondBare "T1" 0 =
      Throw (noTriggerError hostSecondBare 0).
Proof. split; vm_compute; reflexivity. Qed.

(** With one trigger executed, the call returns its envelope. *)
Lemma getTriggerTestMetaData_one_ran :
  getTriggerTestMetaData hostOneRan "T1" 0 = Normal (envelopeOf "T1" "second").
Proof. vm_compute. reflexivity. Qed.

(** * Further properties of the code *)

(** ** Branch topology for arbitrary parameter values *)

(** X1: Whatever the parameter bag holds, the output branches are a
    sub-list of [Clean Up; On Fail]: at most two, in that order, all of
    the main connection kind. *)
Theorem nodeOutputs_sublist (Main : string) (parameters : gmap string value)
    (cleanUpDefault failDefault : bool) :
  nodeOutputs Main parameters cleanUpDefault failDefault
    `sublist_of` [Branch.mk Main (Some "Clean Up") None;
                  Branch.mk Main (Some "On Fail") (Some "error")].
Proof.
  unfold nodeOutputs.
  destruct (truthy _), (truthy _); simpl;
    repeat first [apply sublist_nil | apply sublist_skip; [] | apply sublist_cons
                 | apply sublist_skip].
Qed.

(** A toggle that reads as anything but [undefined] decides alone. *)
Lemma nodeOutputs_defined_inputs
    (Main : string) (parameters : gmap string value) :
  (cleanUpBranchInput parameters ≠ JUndefined →
   ∀ d d' failDefault,
     nodeOutputs Main parameters d failDefault =
       nodeOutputs Main parameters d' failDefault
     ∧ (Branch.mk Main (Some "Clean Up") None
          ∈ nodeOutputs Main parameters d failDefault
        ↔ truthy (cleanUpBranchInput parameters) = true))
  ∧ (failBranchInput parameters ≠ JUndefined →
     ∀ d d' cleanUpDefault,
       nodeOutputs Main parameters cleanUpDefault d =
         nodeOutputs Main parameters cleanUpDefault d'
       ∧ (Branch.mk Main (Some "On Fail") (Some "error")
            ∈ nodeOutputs Main parameters cleanUpDefault d
          ↔ truthy (failBranchInput parameters) = true)).
Proof.
  assert (Hdef : ∀ v, v ≠ JUndefined → isDefined v = true)
    by (intros []; simpl; congruence).
  split; intros Hne d d' other; unfold nodeOutputs; rewrite (Hdef _ Hne).
  - split; [reflexivity|].
    destruct (truthy (cleanUpBranchInput parameters));
      destruct (truthy (if isDefined _ then _ else _)); simpl;
      unfold Array_push; simpl; rewrite ?elem_of_cons, ?elem_of_nil;
      split; intros H; try reflexivity; try discriminate; auto;
      repeat destruct H as [H|H]; try discriminate H; contradiction.
  - split; [reflexivity|].
    destruct (truthy (failBranchInput parameters));
      destruct (truthy (if isDefined _ then _ else _)); simpl;
      unfold Array_push; simpl; rewrite ?elem_of_cons, ?elem_of_nil;
      split; intros H; try reflexivity; try discriminate; auto;
      repeat destruct H as [H|H]; try discriminate H; contradiction.
Qed.

(** X2: The default of a toggle counts only while the toggle is
    [undefined].  When [additionalFields] holds any other value [v]
    under [isCleanUpBranchEnabled] (resp. [isFailBranchEnabled]), the
    result is the same for every default of that toggle, and the
    [Clean Up] (resp. [On Fail]) branch is present exactly when [v] is
    truthy: [null], [0], [false] and the empty string switch the branch
    off under a default of [true], and a non-empty string switches it on
    under a default of [false]. *)
Theorem nodeOutputs_default_only_for_undefined
    (Main : string) (parameters fields : gmap string value) (v : value) :
  parameters !! "additionalFields" = Some (JObject fields) →
  v ≠ JUndefined →
  (fields !! "isCleanUpBranchEnabled" = Some v →
   ∀ d d' failDefault,
     nodeOutputs Main parameters d failDefault =
       nodeOutputs Main parameters d' failDefault
     ∧ (Branch.mk Main (Some "Clean Up") None
          ∈ nodeOutputs Main parameters d failDefault
        ↔ truthy v = true))
  ∧ (fields !! "isFailBranchEnabled" = Some v →
     ∀ d d' cleanUpDefault,
       nodeOutputs Main parameters cleanUpDefault d =
         nodeOutputs Main parameters cleanUpDefault d'
       ∧ (Branch.mk Main (Some "On Fail") (Some "error")
            ∈ nodeOutputs Main parameters cleanUpDefault d
          ↔ truthy v = true)).
Proof.
  intros Hfields Hv. split; intros Hk.
  - assert (Hread : cleanUpBranchInput parameters = v).
    { unfold cleanUpBranchInput.
      rewrite (additionalFields_read _ _ _ Hfields), Hk. reflexivity. }
    rewrite <- Hread in Hv |- *.
    apply (proj1 (nodeOutputs_defined_inputs Main parameters) Hv).
  - assert (Hread : failBranchInput parameters = v).
    { unfold failBranchInput.
      rewrite (additionalFields_read _ _ _ Hfields), Hk. reflexivity. }
    rewrite <- Hread in Hv |- *.
    apply (proj2 (nodeOutputs_defined_inputs Main parameters) Hv).
Qed.

Lemma nodeOutputs_default_only_for_undefined_witness :
  (* isFailBranchEnabled: null *)
  (∀ d d' cleanUpDefault,
     nodeOutputs "main"
       {["additionalFields" := JObject {["isFailBranchEnabled" := JNull]}]}
       cleanUpDefault d
     = nodeOutputs "main"
         {["additionalFields" := JObject {["isFailBranchEnabled" := JNull]}]}
         cleanUpDefault d'
     ∧ (Branch.mk "main" (Some "On Fail") (Some "error")
          ∈ nodeOutputs "main"
              {["additionalFields" := JObject {["isFailBranchEnabled" := JNull]}]}
              cleanUpDefault d
        ↔ truthy JNull = true))
  (* isCleanUpBranchEnabled: 0 *)
  ∧ (∀ d d' failDefault,
       nodeOutputs "main"
         {["additionalFields" := JObject {["isCleanUpBranchEnabled" := JNumber 0]}]}
         d failDefault
       = nodeOutputs "main"
           {["additionalFields" := JObject {["isCleanUpBranchEnabled" := JNumber 0]}]}
           d' failDefault
       ∧ (Branch.mk "main" (Some "Clean Up") None
            ∈ nodeOutputs "main"
                {["additionalFields" :=
                    JObject {["isCleanUpBranchEnabled" := JNumber 0]}]}
                d failDefault
          ↔ truthy (JNumber 0) = true))
  (* isCleanUpBranchEnabled: a non-empty string *)
  ∧ (∀ d d' failDefault,
       nodeOutputs "main"
         {["additionalFields" :=
             JObject {["isCleanUpBranchEnabled" := JString "false"]}]}
         d failDefault
       = nodeOutputs "main"
           {["additionalFields" :=
               JObject {["isCleanUpBranchEnabled" := JString "false"]}]}
           d' failDefault
       ∧ (Branch.mk "main" (Some "Clean Up") None
            ∈ nodeOutputs "main"
                {["additionalFields" :=
                    JObject {["isCleanUpBranchEnabled" := JString "false"]}]}
                d failDefault
          ↔ truthy (JString "false") = true)).
Proof.
  split; [|split].
  - apply (proj2 (nodeOutputs_default_only_for_undefined "main"
                    {["additionalFields" := JObject {["isFailBranchEnabled" := JNull]}]}
                    {["isFailBranchEnabled" := JNull]} JNull
                    (lookup_singleton_eq _ _) ltac:(discriminate))).
    apply lookup_singleton_eq.
  - apply (proj1 (nodeOutputs_default_only_for_undefined "main"
                    {["additionalFields" :=
                        JObject {["isCleanUpBranchEnabled" := JNumber 0]}]}
                    {["isCleanUpBranchEnabled" := JNumber 0]} (JNumber 0)
                    (lookup_singleton_eq _ _) ltac:(discriminate))).
    apply lookup_singleton_eq.
  - apply (proj1 (nodeOutputs_default_only_for_undefined "main"
                    {["additionalFields" :=
                        JObject {["isCleanUpBranchEnabled" := JString "false"]}]}
                    {["isCleanUpBranchEnabled" := JString "false"]} (JString "false")
                    (lookup_singleton_eq _ _) ltac:(discriminate))).
    apply lookup_singleton_eq.
Defined.

(** ** Input batches *)

Lemma foldl_push_map {A B} (f : A → B) (l : list A) (acc : list B) :
  foldl (λ acc i, Array_push acc (f i)) acc l = (acc ++ map f l)%list.
Proof.
  revert acc. induction l as [|a l IH]; intros acc; simpl.
  - now rewrite app_nil_r.
  - rewrite IH. unfold Array_push. now rewrite <- app_assoc.
Qed.

Lemma lookup_map_seq {B} (f : nat → B) (k i : nat) :
  i < k → map f (seq 0 k) !! i = Some (f i).
Proof.
  intros Hi. rewrite lookup_map, lookup_seq_lt by exact Hi. reflexivity.
Qed.

(** X3: [getNodeInputsData] returns one batch per input of the main
    connection kind, and the batch at position [i] is what
    [getInputData(i)] returned: positions count the main inputs only,
    whatever other inputs sit between them.  A [null] or [undefined]
    batch, and a call that throws, both give the empty batch at their
    position and leave the other positions alone. *)
Theorem getNodeInputsData_batches (Main : string) (connectionTypes : list string)
    (Item : Type) (getInputData : nat → Completion (option (list Item))) :
  length (getNodeInputsData Main connectionTypes Item getInputData)
    = length (List.filter (λ type, String.eqb type Main) connectionTypes)
  ∧ ∀ i, i < length (List.filter (λ type, String.eqb type Main) connectionTypes) →
      getNodeInputsData Main connectionTypes Item getInputData !! i =
        Some match getInputData i with
             | Normal (Some items) => items
             | Normal None => []
             | Throw _ => []
             end.
Proof.
  unfold getNodeInputsData. rewrite foldl_push_map. simpl. split.
  - now rewrite length_map, length_seq.
  - intros i Hi. now rewrite (lookup_map_seq (inputBatch Item getInputData) _ _ Hi).
Qed.

Lemma getNodeInputsData_batches_witness :
  getNodeInputsData "main" threeInputs value readInput !! 1 = Some [].
Proof.
  apply (proj2 (getNodeInputsData_batches "main" threeInputs value readInput) 1).
  vm_compute. lia.
Defined.

(** X4: Only indices below the number of main inputs are ever read: two
    hosts that agree there give the same batches, and without a main
    input nothing is read at all. *)
Theorem getNodeInputsData_reads_main_indices (Main : string)
    (connectionTypes : list string) (Item : Type)
    (getInputData getInputData' : nat → Completion (option (list Item))) :
  (∀ i, i < length (List.filter (λ type, String.eqb type Main) connectionTypes) →
        getInputData i = getInputData' i) →
  getNodeInputsData Main connectionTypes Item getInputData
    = getNodeInputsData Main connectionTypes Item getInputData'.
Proof.
  intros Hagree. unfold getNodeInputsData. rewrite !foldl_push_map. simpl.
  apply map_ext_in. intros i Hi. apply in_seq in Hi.
  unfold inputBatch. rewrite (Hagree i) by lia. reflexivity.
Qed.

Lemma getNodeInputsData_reads_main_indices_witness :
  getNodeInputsData "main" ["ai_tool"; "ai_memory"] value readInput
    = getNodeInputsData "main" ["ai_tool"; "ai_memory"] value (λ _, Normal None).
Proof.
  apply getNodeInputsData_reads_main_indices. vm_compute. intros i Hi. lia.
Defined.

(** ** Key/value materializer: rows, payload and envelope *)

Lemma metaObject_pass m :
  get (metaObject m) "pass" = from_option JBool JUndefined (pass m).
Proof. destruct m as [[?|] [?|] [?|] [?|]]; reflexivity. Qed.

Lemma orString_nonempty s d : d ≠ EmptyString → orString s d ≠ EmptyString.
Proof.
  intros Hd. destruct s as [[|c s]|]; simpl; auto.
Qed.

Lemma getReturnNodeJsonFromKeyValue_lookup items testId (i : nat) :
  getReturnNodeJsonFromKeyValue (Some items) testId !! i
    = keyValueItem testId <$> items !! i.
Proof. apply lookup_map. Qed.

Lemma lastValue_cons k a rows :
  lastValue k (a :: rows) =
    match lastValue k rows with
    | Some v => Some v
    | None => if String.eqb (KeyValue.key a) k then Some (KeyValue.value a) else None
    end.
Proof.
  unfold lastValue. simpl.
  destruct (String.eqb (KeyValue.key a) k).
  - rewrite last_cons. now destruct (last _).
  - now destruct (last _).
Qed.

(** The object the rows are folded into, read at one name. *)
Lemma foldl_assign_lookup rows (acc : gmap string string) k :
  k ≠ "__proto__" →
  foldl (λ o kv, assign o (KeyValue.key kv) (KeyValue.value kv)) acc rows !! k =
    match lastValue k rows with
    | Some v => Some v
    | None => acc !! k
    end.
Proof.
  intros Hk. revert acc. induction rows as [|a rows IH]; intros acc; [reflexivity|].
  simpl. rewrite IH, lastValue_cons.
  destruct (lastValue k rows); [reflexivity|].
  unfold assign.
  destruct (String.eqb (KeyValue.key a) "__proto__") eqn:Hp.
  - apply String.eqb_eq in Hp.
    destruct (String.eqb (KeyValue.key a) k) eqn:Hak; [|reflexivity].
    apply String.eqb_eq in Hak. congruence.
  - destruct (String.eqb (KeyValue.key a) k) eqn:Hak.
    + apply String.eqb_eq in Hak. rewrite Hak. apply lookup_insert_eq.
    + apply String.eqb_neq in Hak. now apply lookup_insert_ne.
Qed.

Lemma foldl_assign_proto rows (acc : gmap string string) :
  foldl (λ o kv, assign o (KeyValue.key kv) (KeyValue.value kv)) acc rows !! "__proto__"
    = acc !! "__proto__".
Proof.
  revert acc. induction rows as [|a rows IH]; intros acc; [reflexivity|].
  simpl. rewrite IH. unfold assign.
  destruct (String.eqb (KeyValue.key a) "__proto__") eqn:Hp; [reflexivity|].
  apply String.eqb_neq in Hp. now apply lookup_insert_ne.
Qed.

Lemma foldl_assign_ownRows rows (acc : gmap string string) :
  foldl (λ o kv, assign o (KeyValue.key kv) (KeyValue.value kv)) acc (ownRows rows)
    = foldl (λ o kv, assign o (KeyValue.key kv) (KeyValue.value kv)) acc rows.
Proof.
  revert acc. induction rows as [|a rows IH]; intros acc; [reflexivity|].
  unfold ownRows in *. simpl.
  destruct (String.eqb (KeyValue.key a) "__proto__") eqn:Hp; simpl; rewrite IH.
  - assert (assign acc (KeyValue.key a) (KeyValue.value a) = acc) as ->
      by (unfold assign; now rewrite Hp).
    reflexivity.
  - reflexivity.
Qed.

(** X6: The key/value materializer emits one item per test run, in order.
    The item of a run without [keyValueData] has an empty payload; every
    other item carries a [_unitTest] envelope whose [testId] is the id
    passed in, whose [testRunName] is never empty (the run's name, or
    [unnamed]), and which has no [pass] property. *)
Theorem getReturnNodeJsonFromKeyValue_items
    (items : list RawKeyValueInputItems.t) (testId : string) :
  length (getReturnNodeJsonFromKeyValue (Some items) testId) = length items
  ∧ ∀ i item, items !! i = Some item →
      ∃ out,
        getReturnNodeJsonFromKeyValue (Some items) testId !! i = Some out
        ∧ match keyValueData (RawKeyValueInputItems.testRun item) with
          | None => json out = ∅
          | Some _ =>
              ∃ envelope name,
                json out !! "_unitTest" = Some envelope
                ∧ get envelope "testId" = JString testId
                ∧ get envelope "testRunName" = JString name
                ∧ name ≠ EmptyString
                ∧ name = orString (RawKeyValueInputItems.testRunName item) "unnamed"
                ∧ get envelope "pass" = JUndefined
          end.
Proof.
  split; [apply length_map|].
  intros i item Hi. rewrite getReturnNodeJsonFromKeyValue_lookup, Hi. simpl.
  eexists. split; [reflexivity|].
  destruct (keyValueData (RawKeyValueInputItems.testRun item)) as [rows|] eqn:Hrows.
  - rewrite (keyValueItem_rows _ _ _ Hrows). simpl.
    eexists _, _. split; [apply lookup_insert_eq|].
    rewrite metaObject_testId, metaObject_testRunName, metaObject_pass. simpl.
    repeat split. now apply orString_nonempty.
  - now rewrite (keyValueItem_no_rows_property _ _ Hrows).
Qed.

Lemma getReturnNodeJsonFromKeyValue_items_witness :
  ∃ out,
    getReturnNodeJsonFromKeyValue
      (Some [RawKeyValueInputItems.mk None {| keyValueData := None |};
             RawKeyValueInputItems.mk (Some "B") {| keyValueData := Some [] |}])
      "T1" !! 0 = Some out
    ∧ json out = ∅.
Proof.
  exact (proj2 (getReturnNodeJsonFromKeyValue_items
                  [RawKeyValueInputItems.mk None {| keyValueData := None |};
                   RawKeyValueInputItems.mk (Some "B") {| keyValueData := Some [] |}]
                  "T1")
           0 (RawKeyValueInputItems.mk None {| keyValueData := None |}) eq_refl).
Defined.

(** X7: Rows are folded in order, so among rows with the same key the last
    one wins: the payload holds, under each key other than [_unitTest]
    and [__proto__], the value of the last row with that key, and
    nothing under a key no row has. *)
Theorem getReturnNodeJsonFromKeyValue_last_row_wins
    (items : list RawKeyValueInputItems.t) (testId : string)
    (i : nat) (item : RawKeyValueInputItems.t) (rows : list KeyValue.t) (k : string) :
  items !! i = Some item →
  keyValueData (RawKeyValueInputItems.testRun item) = Some rows →
  k ≠ "_unitTest" → k ≠ "__proto__" →
  ∃ out,
    getReturnNodeJsonFromKeyValue (Some items) testId !! i = Some out
    ∧ json out !! k = JString <$> lastValue k rows.
Proof.
  intros Hi Hrows Hu Hp. rewrite getReturnNodeJsonFromKeyValue_lookup, Hi. simpl.
  eexists. split; [reflexivity|].
  rewrite (keyValueItem_rows _ _ _ Hrows). simpl.
  rewrite lookup_insert_ne by congruence.
  rewrite lookup_fmap, foldl_assign_lookup by exact Hp.
  rewrite lookup_empty. now destruct (lastValue k rows).
Qed.

Lemma getReturnNodeJsonFromKeyValue_last_row_wins_witness :
  ∃ out,
    getReturnNodeJsonFromKeyValue
      (Some [RawKeyValueInputItems.mk (Some "A")
               {| keyValueData :=
                    Some [KeyValue.mk "x" "1"; KeyValue.mk "y" "2"; KeyValue.mk "x" "3"] |}])
      "T1" !! 0 = Some out
    ∧ json out !! "x" =
        JString <$> lastValue "x"
          [KeyValue.mk "x" "1"; KeyValue.mk "y" "2"; KeyValue.mk "x" "3"].
Proof.
  apply (getReturnNodeJsonFromKeyValue_last_row_wins
           [RawKeyValueInputItems.mk (Some "A")
              {| keyValueData :=
                   Some [KeyValue.mk "x" "1"; KeyValue.mk "y" "2"; KeyValue.mk "x" "3"] |}]
           "T1" 0
           (RawKeyValueInputItems.mk (Some "A")
              {| keyValueData :=
                   Some [KeyValue.mk "x" "1"; KeyValue.mk "y" "2"; KeyValue.mk "x" "3"] |})
           [KeyValue.mk "x" "1"; KeyValue.mk "y" "2"; KeyValue.mk "x" "3"] "x"
           eq_refl eq_refl); discriminate.
Defined.

(** X8: A row whose key is [_unitTest] never reaches the payload: there the
    envelope takes its place.  The row is still recorded in the
    envelope's [triggerInputData], which holds all the rows folded
    together; the payload is that object with the envelope added. *)
Theorem getReturnNodeJsonFromKeyValue_payload
    (items : list RawKeyValueInputItems.t) (testId : string)
    (i : nat) (item : RawKeyValueInputItems.t) (rows : list KeyValue.t) :
  items !! i = Some item →
  keyValueData (RawKeyValueInputItems.testRun item) = Some rows →
  ∃ out envelope data,
    getReturnNodeJsonFromKeyValue (Some items) testId !! i = Some out
    ∧ get envelope "triggerInputData" = JObject data
    ∧ json out = <["_unitTest" := envelope]> data
    ∧ data !! "_unitTest" = JString <$> lastValue "_unitTest" rows
    ∧ get envelope "testId" = JString testId.
Proof.
  intros Hi Hrows. rewrite getReturnNodeJsonFromKeyValue_lookup, Hi. simpl.
  rewrite (keyValueItem_rows _ _ _ Hrows). simpl.
  eexists _, _, _. split; [reflexivity|]. simpl.
  split; [|split; [reflexivity|split]].
  - now rewrite metaObject_triggerInputData.
  - rewrite lookup_fmap, foldl_assign_lookup by discriminate.
    rewrite lookup_empty. now destruct (lastValue "_unitTest" rows).
  - now rewrite metaObject_testId.
Qed.

Lemma getReturnNodeJsonFromKeyValue_payload_witness :
  ∃ out envelope data,
    getReturnNodeJsonFromKeyValue
      (Some [RawKeyValueInputItems.mk None
               {| keyValueData := Some [KeyValue.mk "_unitTest" "mine"] |}])
      "T1" !! 0 = Some out
    ∧ get envelope "triggerInputData" = JObject data
    ∧ json out = <["_unitTest" := envelope]> data
    ∧ data !! "_unitTest" = JString <$> lastValue "_unitTest" [KeyValue.mk "_unitTest" "mine"]
    ∧ get envelope "testId" = JString "T1".
Proof.
  apply (getReturnNodeJsonFromKeyValue_payload
           [RawKeyValueInputItems.mk None
              {| keyValueData := Some [KeyValue.mk "_unitTest" "mine"] |}]
           "T1" 0
           (RawKeyValueInputItems.mk None
              {| keyValueData := Some [KeyValue.mk "_unitTest" "mine"] |})
           [KeyValue.mk "_unitTest" "mine"] eq_refl eq_refl).
Defined.

(** X9: A row whose key is [__proto__] leaves no trace: the assignment
    reaches the inherited accessor, which ignores a string.  The output
    is the one obtained after removing such rows from the run. *)
Theorem getReturnNodeJsonFromKeyValue_proto_rows_ignored
    (items : list RawKeyValueInputItems.t) (testId : string)
    (i : nat) (name : option string) (rows : list KeyValue.t) :
  items !! i = Some (RawKeyValueInputItems.mk name {| keyValueData := Some rows |}) →
  getReturnNodeJsonFromKeyValue (Some items) testId =
    getReturnNodeJsonFromKeyValue
      (Some (<[i := RawKeyValueInputItems.mk name
                       {| keyValueData := Some (ownRows rows) |}]> items)) testId.
Proof.
  intros Hi. unfold getReturnNodeJsonFromKeyValue. symmetry.
  apply (map_insert_same _ _ _ _ _ Hi).
  rewrite (keyValueItem_rows testId
             (RawKeyValueInputItems.mk name {| keyValueData := Some rows |})
             rows eq_refl).
  rewrite (keyValueItem_rows testId
             (RawKeyValueInputItems.mk name {| keyValueData := Some (ownRows rows) |})
             (ownRows rows) eq_refl).
  simpl. now rewrite foldl_assign_ownRows.
Qed.

Lemma getReturnNodeJsonFromKeyValue_proto_rows_ignored_witness :
  getReturnNodeJsonFromKeyValue
    (Some [RawKeyValueInputItems.mk (Some "A")
             {| keyValueData := Some [KeyValue.mk "__proto__" "p"; KeyValue.mk "x" "1"] |}])
    "T1"
  = getReturnNodeJsonFromKeyValue
      (Some [RawKeyValueInputItems.mk (Some "A")
               {| keyValueData := Some [KeyValue.mk "x" "1"] |}])
      "T1".
Proof.
  exact (getReturnNodeJsonFromKeyValue_proto_rows_ignored
           [RawKeyValueInputItems.mk (Some "A")
              {| keyValueData := Some [KeyValue.mk "__proto__" "p"; KeyValue.mk "x" "1"] |}]
           "T1" 0 (Some "A") [KeyValue.mk "__proto__" "p"; KeyValue.mk "x" "1"] eq_refl).
Defined.

(** ** JSON materializer: all or nothing *)

Lemma Array_map_Normal_inv {A B} (f : A → Completion B) (l : list A) (out : list B) :
  Array_map f l = Normal out →
  length out = length l ∧ ∀ x, x ∈ l → ∃ y, f x = Normal y.
Proof.
  revert out. induction l as [|a l IH]; intros out H.
  - injection H as <-. split; [reflexivity|]. intros x Hx. inversion Hx.
  - rewrite Array_map_cons in H. destruct (f a) as [b|] eqn:Ha; [|discriminate].
    destruct (Array_map f l) as [bs|]; [|discriminate].
    injection H as <-. destruct (IH bs eq_refl) as [Hlen Hall].
    split; [simpl; now rewrite Hlen|].
    intros x Hx. inversion Hx; subst; eauto.
Qed.

Lemma getReturnNodeJsonFromJson_Normal_intro
    (JSON_parse : string → Completion value)
    (items : list RawJsonInput.t) (testId : string) :
  (∀ item, item ∈ items → ∃ v, JSON_parse (RawJsonInput.jsonTestRun item) = Normal v) →
  ∃ out, getReturnNodeJsonFromJson JSON_parse (Some items) testId = Normal out.
Proof.
  intros Hall.
  destruct (Array_map_Normal (jsonItem JSON_parse testId) items) as (out & Hout & _).
  { intros x Hx. destruct (Hall x Hx) as [v Hv].
    rewrite (jsonItem_Normal _ _ _ _ Hv). eauto. }
  eauto.
Qed.

Lemma getReturnNodeJsonFromJson_Normal_inv
    (JSON_parse : string → Completion value)
    (items : list RawJsonInput.t) (testId : string) (out : list TriggerReturnData) :
  getReturnNodeJsonFromJson JSON_parse (Some items) testId = Normal out →
  length out = length items
  ∧ (∀ item, item ∈ items →
       ∃ v, JSON_parse (RawJsonInput.jsonTestRun item) = Normal v)
  ∧ ∀ i item, items !! i = Some item →
      ∃ v, JSON_parse (RawJsonInput.jsonTestRun item) = Normal v
           ∧ out !! i = Some {| json :=
               <["_unitTest" := metaObject {|
                    pass := None;
                    testId := Some testId;
                    testRunName :=
                      Some (orString (RawJsonInput.testRunName item) "unnamed");
                    triggerInputData := Some v |}]> (entries v) |}.
Proof.
  intros H. pose proof H as H'. apply Array_map_Normal_inv in H' as [Hlen Hall].
  assert (Hparse : ∀ item, item ∈ items →
                     ∃ v, JSON_parse (RawJsonInput.jsonTestRun item) = Normal v).
  { intros item Hitem. destruct (Hall item Hitem) as [y Hy].
    unfold jsonItem in Hy.
    destruct (JSON_parse (RawJsonInput.jsonTestRun item)) as [v|];
      [eauto|discriminate Hy]. }
  split; [exact Hlen|]. split; [exact Hparse|].
  intros i item Hi.
  destruct (Array_map_Normal _ _ Hall) as (out' & Hout & Hlook).
  unfold getReturnNodeJsonFromJson in H. rewrite H in Hout. injection Hout as <-.
  destruct (Hlook i item Hi) as (o & Ho & Hio).
  destruct (Hparse item (list_elem_of_lookup_2 _ _ _ Hi)) as [v Hv].
  rewrite (jsonItem_Normal _ _ _ _ Hv) in Ho. injection Ho as <-.
  exists v. split; [exact Hv|exact Hio].
Qed.

(** X10: The JSON materializer returns a list exactly when every entry
    parses, and then one item per entry, in order: the item of an entry
    is the own properties of its parsed value plus the envelope, and the
    envelope records the id passed in and the parsed value itself. *)
Theorem getReturnNodeJsonFromJson_all_or_nothing
    (JSON_parse : string → Completion value)
    (items : list RawJsonInput.t) (testId : string) :
  ((∃ out, getReturnNodeJsonFromJson JSON_parse (Some items) testId = Normal out)
   ↔ ∀ item, item ∈ items →
       ∃ v, JSON_parse (RawJsonInput.jsonTestRun item) = Normal v)
  ∧ ∀ out, getReturnNodeJsonFromJson JSON_parse (Some items) testId = Normal out →
      length out = length items
      ∧ ∀ i item, items !! i = Some item →
          ∃ v o envelope,
            JSON_parse (RawJsonInput.jsonTestRun item) = Normal v
            ∧ out !! i = Some o
            ∧ json o = <["_unitTest" := envelope]> (entries v)
            ∧ get envelope "testId" = JString testId
            ∧ get envelope "triggerInputData" = v.
Proof.
  split; [split|].
  - intros [out H]. apply (getReturnNodeJsonFromJson_Normal_inv _ _ _ _ H).
  - apply getReturnNodeJsonFromJson_Normal_intro.
  - intros out H.
    destruct (getReturnNodeJsonFromJson_Normal_inv _ _ _ _ H) as (Hlen & _ & Hlook).
    split; [exact Hlen|]. intros i item Hi.
    destruct (Hlook i item Hi) as (v & Hv & Hio).
    eexists v, _, _. split; [exact Hv|]. split; [exact Hio|]. simpl.
    split; [reflexivity|].
    now rewrite metaObject_testId, metaObject_triggerInputData.
Qed.

Lemma getReturnNodeJsonFromJson_all_or_nothing_witness :
  ∃ out,
    getReturnNodeJsonFromJson JSON.parse
      (Some [RawJsonInput.mk None jsonTextA1; RawJsonInput.mk (Some "B") "[1, 2]"])
      "T2" = Normal out.
Proof.
  apply (proj2 (proj1 (getReturnNodeJsonFromJson_all_or_nothing JSON.parse
           [RawJsonInput.mk None jsonTextA1; RawJsonInput.mk (Some "B") "[1, 2]"] "T2"))).
  intros item Hitem.
  inversion Hitem as [|? ? ? Hitem']; subst;
    [|inversion Hitem' as [|? ? ? Hitem'']; subst; [|inversion Hitem'']];
    eexists; vm_compute; reflexivity.
Defined.

(** X11: A JSON text that parses to [null], a boolean or a number is not an
    error: such a value has no properties to copy, so the payload holds
    the envelope alone, and the value is kept as [triggerInputData]. *)
Theorem getReturnNodeJsonFromJson_scalar
    (JSON_parse : string → Completion value)
    (items : list RawJsonInput.t) (testId : string)
    (i : nat) (item : RawJsonInput.t) (v : value) :
  (∀ x, x ∈ items → ∃ w, JSON_parse (RawJsonInput.jsonTestRun x) = Normal w) →
  items !! i = Some item →
  JSON_parse (RawJsonInput.jsonTestRun item) = Normal v →
  v = JNull ∨ (∃ b, v = JBool b) ∨ (∃ z, v = JNumber z) →
  ∃ out o envelope,
    getReturnNodeJsonFromJson JSON_parse (Some items) testId = Normal out
    ∧ out !! i = Some o
    ∧ json o = {["_unitTest" := envelope]}
    ∧ get envelope "triggerInputData" = v
    ∧ get envelope "testId" = JString testId.
Proof.
  intros Hall Hi Hv Hscalar.
  destruct (getReturnNodeJsonFromJson_Normal_intro _ _ testId Hall) as [out Hout].
  destruct (getReturnNodeJsonFromJson_Normal_inv _ _ _ _ Hout) as (_ & _ & Hlook).
  destruct (Hlook i item Hi) as (v' & Hv' & Hio).
  rewrite Hv in Hv'. injection Hv' as <-.
  eexists out, _, _. split; [exact Hout|]. split; [exact Hio|]. simpl.
  split; [destruct Hscalar as [->|[[b ->]|[z ->]]]; reflexivity|].
  destruct Hscalar as [->|[[b ->]|[z ->]]];
    now rewrite metaObject_triggerInputData, metaObject_testId.
Qed.

Lemma getReturnNodeJsonFromJson_scalar_witness :
  ∃ out o envelope,
    getReturnNodeJsonFromJson JSON.parse (Some [RawJsonInput.mk None "null"]) "T2"
      = Normal out
    ∧ out !! 0 = Some o
    ∧ json o = {["_unitTest" := envelope]}
    ∧ get envelope "triggerInputData" = JNull
    ∧ get envelope "testId" = JString "T2".
Proof.
  apply (getReturnNodeJsonFromJson_scalar JSON.parse
           [RawJsonInput.mk None "null"] "T2" 0 (RawJsonInput.mk None "null") JNull).
  - intros x Hx. exists JNull.
    inversion Hx as [|? ? ? Hx']; subst; [reflexivity|inversion Hx'].
  - reflexivity.
  - reflexivity.
  - now left.
Defined.

(** ** Trigger correlator: what is returned, and when it is right *)

Lemma hasTestId_metaObject m target :
  hasTestId (metaObject m) target = true ↔ testId m = Some target.
Proof.
  unfold hasTestId.
  change (getOpt (metaObject m) "testId") with (get (metaObject m) "testId").
  rewrite metaObject_testId, eqString_true.
  destruct (testId m); simpl; split; congruence.
Qed.

Section CorrelatorScan.

Variable n : IExecuteFunctions.
Variable testId : string.
Variable itemIndex : Z.

Lemma testTriggerNodes_type (t : INode.t) :
  t ∈ testTriggerNodes n →
  INode.type t = "n8n-nodes-base.unitTestTrigger"
  ∧ t ∈ getParentNodes n (INode.name (getNode n)).
Proof.
  unfold testTriggerNodes. rewrite !list_elem_of_In, filter_In, String.eqb_eq. tauto.
Qed.

Lemma lastProbedFrom_throw (v0 : value) (nodes : list INode.t) :
  (∀ t, t ∈ nodes → ∃ e, probe n itemIndex t = Throw e) →
  lastProbedFrom n itemIndex v0 nodes = v0.
Proof.
  revert v0. induction nodes as [|a nodes IH]; intros v0 H; [reflexivity|].
  unfold lastProbedFrom in *. simpl.
  destruct (H a) as [e ->]; [left|]. apply IH. intros t Ht. apply H. now right.
Qed.

Lemma lastProbedFrom_app (v0 : value) (l1 l2 : list INode.t) :
  lastProbedFrom n itemIndex v0 (l1 ++ l2)
    = lastProbedFrom n itemIndex (lastProbedFrom n itemIndex v0 l1) l2.
Proof. unfold lastProbedFrom. apply foldl_app. Qed.

Lemma lastProbedFrom_snoc (v0 : value) (l : list INode.t) (x : INode.t) :
  lastProbedFrom n itemIndex v0 (l ++ [x])
    = match probe n itemIndex x with
      | Normal v => v
      | Throw _ => lastProbedFrom n itemIndex v0 l
      end.
Proof. unfold lastProbedFrom. now rewrite foldl_app. Qed.

(** The envelope read last comes from one of the nodes, unless none
    could be read. *)
Lemma lastProbedFrom_origin (v0 : value) (nodes : list INode.t) :
  lastProbedFrom n itemIndex v0 nodes = v0
  ∨ ∃ t, t ∈ nodes
         ∧ probe n itemIndex t = Normal (lastProbedFrom n itemIndex v0 nodes).
Proof.
  induction nodes as [|x l IH] using rev_ind; [now left|].
  rewrite lastProbedFrom_snoc.
  destruct (probe n itemIndex x) as [v|e] eqn:Hx.
  - right. exists x. split; [apply elem_of_app; right; left|exact Hx].
  - destruct IH as [IH|(t & Ht & Hp)]; [now left|].
    right. exists t. split; [apply elem_of_app; now left|exact Hp].
Qed.

Lemma existsb_matching_witness (nodes : list INode.t) :
  existsb (matching n testId itemIndex) nodes = true →
  ∃ t v, t ∈ nodes ∧ probe n itemIndex t = Normal v ∧ hasTestId v testId = true.
Proof.
  rewrite existsb_exists. intros (t & Ht & Hm). unfold matching in Hm.
  destruct (probe n itemIndex t) as [v|] eqn:Hp; [|discriminate].
  exists t, v. rewrite list_elem_of_In. auto.
Qed.

(** When the envelope read last carries the target id, it is the
    envelope of the last matching node. *)
Lemma lastProbedFrom_matches (v0 : value) (nodes : list INode.t) :
  hasTestId v0 testId = false →
  hasTestId (lastProbedFrom n itemIndex v0 nodes) testId = true →
  existsb (matching n testId itemIndex) nodes = true
  ∧ (triggerNode ← last (List.filter (matching n testId itemIndex) nodes);
     match probe n itemIndex triggerNode with
     | Normal v => Some v
     | Throw _ => None
     end) = Some (lastProbedFrom n itemIndex v0 nodes).
Proof.
  intros Hv0. induction nodes as [|x l IH] using rev_ind; intros Hlast.
  - simpl in Hlast. congruence.
  - rewrite lastProbedFrom_snoc in *.
    rewrite List.filter_app, existsb_app. simpl.
    assert (Hm : matching n testId itemIndex x =
                 match probe n itemIndex x with
                 | Normal v => hasTestId v testId
                 | Throw _ => false
                 end) by reflexivity.
    rewrite Hm. clear Hm.
    destruct (probe n itemIndex x) as [v|e] eqn:Hx.
    + rewrite Hlast. rewrite last_snoc. simpl. rewrite Hx.
      now rewrite orb_true_r.
    + simpl. rewrite app_nil_r, orb_false_r. now apply IH.
Qed.

(** One trigger ancestor has executed, the others have not. *)
Lemma scan_one_executed (before after : list INode.t) (t : INode.t) (v : value) :
  testTriggerNodes n = (before ++ t :: after)%list →
  (∀ x, x ∈ before ∨ x ∈ after → ∃ e, probe n itemIndex x = Throw e) →
  probe n itemIndex t = Normal v →
  lastProbed n itemIndex = v
  ∧ existsb (matching n testId itemIndex) (testTriggerNodes n) = hasTestId v testId.
Proof.
  intros Hnodes Hothers Ht. unfold lastProbed. rewrite Hnodes. split.
  - change (t :: after) with ([t] ++ after)%list.
    rewrite !lastProbedFrom_app.
    rewrite (lastProbedFrom_throw JUndefined before) by (intros; apply Hothers; auto).
    rewrite (lastProbedFrom_throw _ after) by (intros; apply Hothers; auto).
    unfold lastProbedFrom. simpl. now rewrite Ht.
  - rewrite existsb_app. simpl.
    rewrite !(existsb_matching_false n testId itemIndex).
    + unfold matching. rewrite Ht. now rewrite orb_false_r.
    + intros x w Hx Hw. destruct (Hothers x) as [e He]; [auto|congruence].
    + intros x w Hx Hw. destruct (Hothers x) as [e He]; [auto|congruence].
Qed.

End CorrelatorScan.

(** X13: When exactly one trigger ancestor has executed (evaluating against
    any other one throws), the correlator returns that trigger's
    envelope if it carries the target id, and raises the operational
    error otherwise. *)
Theorem getTriggerTestMetaData_one_executed
    (n : IExecuteFunctions) (testId : string) (itemIndex : Z)
    (before after : list INode.t) (t : INode.t) (v : value) :
  testTriggerNodes n = (before ++ t :: after)%list →
  (∀ x, x ∈ before ∨ x ∈ after → ∃ e, probe n itemIndex x = Throw e) →
  probe n itemIndex t = Normal v →
  getTriggerTestMetaData n testId itemIndex =
    if hasTestId v testId then Normal v else Throw (noTriggerError n itemIndex).
Proof.
  intros Hnodes Hothers Ht.
  destruct (scan_one_executed n testId itemIndex _ _ _ _ Hnodes Hothers Ht) as [Hv Hex].
  rewrite getTriggerTestMetaData_closed_form, Hv, Hex.
  destruct (hasTestId v testId) eqn:Hid; [|reflexivity].
  now rewrite (hasTestId_truthy _ _ Hid).
Qed.

Lemma getTriggerTestMetaData_one_executed_witness :
  getTriggerTestMetaData hostOneRan "T1" 0 =
    if hasTestId (envelopeOf "T1" "second") "T1"
    then Normal (envelopeOf "T1" "second")
    else Throw (noTriggerError hostOneRan 0).
Proof.
  apply (getTriggerTestMetaData_one_executed hostOneRan "T1" 0 [triggerA] [] triggerB).
  - reflexivity.
  - intros x [Hx|Hx].
    + inversion Hx as [|? ? ? Hx']; subst; [|inversion Hx'].
      eexists. vm_compute. reflexivity.
    + inversion Hx.
  - vm_compute. reflexivity.
Defined.

(** X14: Whatever the correlator returns was read from an ancestor of the
    test-trigger type, is a truthy value, and some trigger ancestor
    (possibly another one) carries the target id. *)
Theorem getTriggerTestMetaData_returns_read_envelope
    (n : IExecuteFunctions) (testId : string) (itemIndex : Z) (v : value) :
  getTriggerTestMetaData n testId itemIndex = Normal v →
  truthy v = true
  ∧ (∃ t, t ∈ getParentNodes n (INode.name (getNode n))
          ∧ INode.type t = "n8n-nodes-base.unitTestTrigger"
          ∧ evaluateExpression n (triggerExpression (INode.name t)) itemIndex = Normal v)
  ∧ (∃ t' v', t' ∈ getParentNodes n (INode.name (getNode n))
              ∧ INode.type t' = "n8n-nodes-base.unitTestTrigger"
              ∧ evaluateExpression n (triggerExpression (INode.name t')) itemIndex
                = Normal v'
              ∧ hasTestId v' testId = true).
Proof.
  rewrite getTriggerTestMetaData_closed_form.
  destruct (existsb _ _) eqn:Hex; simpl; [|discriminate].
  destruct (truthy (lastProbed n itemIndex)) eqn:Htruthy; [|discriminate].
  injection 1 as <-. split; [exact Htruthy|]. split.
  - destruct (lastProbedFrom_origin n itemIndex JUndefined (testTriggerNodes n))
      as [H0|(t & Ht & Hp)].
    + unfold lastProbed in Htruthy. rewrite H0 in Htruthy. discriminate.
    + exists t. destruct (testTriggerNodes_type n t Ht) as [Hty Hin]. auto.
  - destruct (existsb_matching_witness n testId itemIndex _ Hex) as (t & w & Ht & Hp & Hid).
    exists t, w. destruct (testTriggerNodes_type n t Ht) as [Hty Hin]. auto.
Qed.

Lemma getTriggerTestMetaData_returns_read_envelope_witness :
  truthy (envelopeOf "T2" "second") = true
  ∧ (∃ t, t ∈ getParentNodes hostTwoRan (INode.name (getNode hostTwoRan))
          ∧ INode.type t = "n8n-nodes-base.unitTestTrigger"
          ∧ evaluateExpression hostTwoRan (triggerExpression (INode.name t)) 0
            = Normal (envelopeOf "T2" "second"))
  ∧ (∃ t' v', t' ∈ getParentNodes hostTwoRan (INode.name (getNode hostTwoRan))
              ∧ INode.type t' = "n8n-nodes-base.unitTestTrigger"
              ∧ evaluateExpression hostTwoRan (triggerExpression (INode.name t')) 0
                = Normal v'
              ∧ hasTestId v' "T1" = true).
Proof.
  apply (getTriggerTestMetaData_returns_read_envelope hostTwoRan "T1" 0).
  vm_compute. reflexivity.
Defined.

(** X15: The correlator is right whenever no later trigger ancestor can be
    evaluated: if a trigger ancestor carries the target id and every
    trigger ancestor after it throws, its envelope is returned.  And an
    envelope that is returned and carries the target id is always the
    envelope of the last matching ancestor. *)
Theorem getTriggerTestMetaData_last_read_matches
    (n : IExecuteFunctions) (testId : string) (itemIndex : Z) :
  (∀ before after t v,
     testTriggerNodes n = (before ++ t :: after)%list →
     probe n itemIndex t = Normal v →
     hasTestId v testId = true →
     (∀ x, x ∈ after → ∃ e, probe n itemIndex x = Throw e) →
     getTriggerTestMetaData n testId itemIndex = Normal v
     ∧ lastMatch n testId itemIndex = Some v)
  ∧ (∀ v, getTriggerTestMetaData n testId itemIndex = Normal v →
          hasTestId v testId = true →
          lastMatch n testId itemIndex = Some v).
Proof.
  assert (Hmatch : hasTestId (lastProbed n itemIndex) testId = true →
                   existsb (matching n testId itemIndex) (testTriggerNodes n) = true
                   ∧ lastMatch n testId itemIndex = Some (lastProbed n itemIndex)).
  { apply (lastProbedFrom_matches n testId itemIndex JUndefined). reflexivity. }
  split.
  - intros before after t v Hnodes Ht Hid Hafter.
    assert (Hlast : lastProbed n itemIndex = v).
    { unfold lastProbed. rewrite Hnodes.
      change (t :: after) with ([t] ++ after)%list.
      rewrite !lastProbedFrom_app, (lastProbedFrom_throw _ _ _ after Hafter).
      unfold lastProbedFrom. simpl. now rewrite Ht. }
    rewrite <- Hlast in Hid. destruct (Hmatch Hid) as [Hex Hlm].
    rewrite getTriggerTestMetaData_closed_form, Hex, (hasTestId_truthy _ _ Hid).
    rewrite <- Hlast. auto.
  - intros v Hres Hid. rewrite getTriggerTestMetaData_closed_form in Hres.
    destruct (_ && _); [|discriminate]. injection Hres as <-.
    apply (Hmatch Hid).
Qed.

Lemma getTriggerTestMetaData_last_read_matches_witness :
  getTriggerTestMetaData hostTwoRan "T2" 0 = Normal (envelopeOf "T2" "second")
  ∧ lastMatch hostTwoRan "T2" 0 = Some (envelopeOf "T2" "second").
Proof.
  apply (proj1 (getTriggerTestMetaData_last_read_matches hostTwoRan "T2" 0)
           [triggerA] [] triggerB).
  - reflexivity.
  - vm_compute. reflexivity.
  - vm_compute. reflexivity.
  - intros x Hx. inversion Hx.
Defined.

Lemma foldl_ext_in {A B} (f g : A → B → A) (l : list B) (a : A) :
  (∀ a x, x ∈ l → f a x = g a x) → foldl f a l = foldl g a l.
Proof.
  revert a. induction l as [|x l IH]; intros a H; [reflexivity|].
  simpl. rewrite (H a x) by left. apply IH. intros a' y Hy. apply H. now right.
Qed.

(** X16: The correlator consults the evaluator for its trigger ancestors
    only, with the expression built from their names and at the given
    item index: two hosts with the same current node and ancestors whose
    evaluators agree on those expressions give the same outcome,
    however they differ on other nodes, expressions or indices. *)
Theorem getTriggerTestMetaData_evaluates_triggers_only
    (n n' : IExecuteFunctions) (testId : string) (itemIndex : Z) :
  getNode n = getNode n' →
  getParentNodes n (INode.name (getNode n)) = getParentNodes n' (INode.name (getNode n')) →
  (∀ t, t ∈ getParentNodes n (INode.name (getNode n)) →
        INode.type t = "n8n-nodes-base.unitTestTrigger" →
        evaluateExpression n (triggerExpression (INode.name t)) itemIndex
        = evaluateExpression n' (triggerExpression (INode.name t)) itemIndex) →
  getTriggerTestMetaData n testId itemIndex = getTriggerTestMetaData n' testId itemIndex.
Proof.
  intros Hnode Hparents Heval.
  assert (Hnodes : testTriggerNodes n = testTriggerNodes n').
  { unfold testTriggerNodes. now rewrite Hparents. }
  unfold getTriggerTestMetaData, noTriggerError. rewrite <- Hnodes, <- Hnode.
  rewrite (foldl_ext_in (scanStep n testId itemIndex) (scanStep n' testId itemIndex));
    [reflexivity|].
  intros st t Ht. destruct (testTriggerNodes_type n t Ht) as [Hty Hin].
  unfold scanStep, probe. now rewrite (Heval t Hin Hty).
Qed.

Lemma getTriggerTestMetaData_evaluates_triggers_only_witness :
  getTriggerTestMetaData hostTwoRan "T1" 0 = getTriggerTestMetaData hostTwoRanSetToo "T1" 0.
Proof.
  apply getTriggerTestMetaData_evaluates_triggers_only; [reflexivity|reflexivity|].
  intros t Ht Hty.
  inversion Ht as [|? ? ? Ht']; subst; [reflexivity|].
  inversion Ht' as [|? ? ? Ht'']; subst; [discriminate Hty|].
  inversion Ht'' as [|? ? ? Ht3]; subst; [reflexivity|inversion Ht3].
Defined.

(** ** From the materializers to the correlator *)

Lemma stampedBy_hasTestId (JSON_parse : string → Completion value)
    (id : string) (envelope : value) :
  stampedBy JSON_parse id envelope →
  ∀ target, hasTestId envelope target = true ↔ target = id.
Proof.
  assert (Hmeta : ∀ name data target,
            hasTestId (metaObject {| pass := None; testId := Some id;
                                     testRunName := name;
                                     triggerInputData := data |}) target = true
            ↔ target = id).
  { intros name data target. rewrite hasTestId_metaObject. simpl.
    split; congruence. }
  intros [(items & out & Hin & Henv)|(items & outs & out & Hres & Hin & Henv)] target.
  - unfold getReturnNodeJsonFromKeyValue in Hin.
    apply list_elem_of_In, in_map_iff in Hin as (item & <- & _).
    destruct (keyValueData (RawKeyValueInputItems.testRun item)) as [rows|] eqn:Hrows.
    + rewrite (keyValueItem_rows _ _ _ Hrows) in Henv. simpl in Henv.
      rewrite lookup_insert_eq in Henv. injection Henv as <-. apply Hmeta.
    + rewrite (keyValueItem_no_rows_property _ _ Hrows) in Henv. simpl in Henv.
      rewrite lookup_empty in Henv. discriminate.
  - destruct (getReturnNodeJsonFromJson_Normal_inv _ _ _ _ Hres) as (Hlen & _ & Hlook).
    apply list_elem_of_lookup_1 in Hin as [i Hi].
    destruct (lookup_lt_is_Some_2 items i) as [item Hitem].
    { rewrite <- Hlen. now apply lookup_lt_Some with out. }
    destruct (Hlook i item Hitem) as (v & _ & Hout).
    rewrite Hi in Hout. injection Hout as ->. simpl in Henv.
    rewrite lookup_insert_eq in Henv. injection Henv as <-. apply Hmeta.
Qed.

(** X17: The envelope a materializer stamps for an id is found again by the
    correlator under that id, and under no other: with one executed
    trigger whose item carries the envelope, the correlator returns it
    for the id it was stamped with and raises the operational error for
    every other id. *)
Theorem correlator_finds_stamped_envelope
    (JSON_parse : string → Completion value)
    (n : IExecuteFunctions) (id : string) (itemIndex : Z)
    (before after : list INode.t) (t : INode.t) (envelope : value) :
  stampedBy JSON_parse id envelope →
  testTriggerNodes n = (before ++ t :: after)%list →
  (∀ x, x ∈ before ∨ x ∈ after → ∃ e, probe n itemIndex x = Throw e) →
  probe n itemIndex t = Normal envelope →
  getTriggerTestMetaData n id itemIndex = Normal envelope
  ∧ ∀ target, target ≠ id →
      getTriggerTestMetaData n target itemIndex = Throw (noTriggerError n itemIndex).
Proof.
  intros Hstamp Hnodes Hothers Ht.
  pose proof (stampedBy_hasTestId _ _ _ Hstamp) as Hid.
  split.
  - destruct (scan_one_executed n id itemIndex _ _ _ _ Hnodes Hothers Ht) as [Hv Hex].
    assert (Hself : hasTestId envelope id = true) by now apply Hid.
    rewrite getTriggerTestMetaData_closed_form, Hv, Hex, Hself.
    now rewrite (hasTestId_truthy _ _ Hself).
  - intros target Hne.
    destruct (scan_one_executed n target itemIndex _ _ _ _ Hnodes Hothers Ht)
      as [Hv Hex].
    rewrite getTriggerTestMetaData_closed_form, Hv, Hex.
    destruct (hasTestId envelope target) eqn:Hh; [|reflexivity].
    apply Hid in Hh. contradiction.
Qed.

Lemma correlator_finds_stamped_envelope_witness :
  getTriggerTestMetaData hostMaterialized "T1" 0 = Normal exampleEnvelope
  ∧ ∀ target, target ≠ "T1" →
      getTriggerTestMetaData hostMaterialized target 0
      = Throw (noTriggerError hostMaterialized 0).
Proof.
  apply (correlator_finds_stamped_envelope JSON.parse hostMaterialized "T1" 0
           [] [] triggerA exampleEnvelope).
  - left. exists [exampleRun], (keyValueItem "T1" exampleRun). split.
    + left.
    + vm_compute. reflexivity.
  - reflexivity.
  - intros x [Hx|Hx]; inversion Hx.
  - vm_compute. reflexivity.
Defined.

(** ** The two input modes agree *)

Lemma sameRun_item (JSON_parse : string → Completion value) (id : string)
    (kv : RawKeyValueInputItems.t) (j : RawJsonInput.t) :
  sameRun JSON_parse kv j →
  jsonItem JSON_parse id j = Normal (keyValueItem id kv).
Proof.
  intros (Hname & rows & data & Hrows & Hparse & Hdata).
  rewrite (jsonItem_Normal _ _ _ _ Hparse), (keyValueItem_rows _ _ _ Hrows). simpl.
  assert (Heq : data = JString <$>
                  foldl (λ o r, assign o (KeyValue.key r) (KeyValue.value r)) ∅ rows).
  { apply map_eq. intros k. rewrite Hdata, lookup_fmap.
    destruct (String.eqb k "__proto__") eqn:Hk.
    - apply String.eqb_eq in Hk. subst k.
      now rewrite foldl_assign_proto, lookup_empty.
    - apply String.eqb_neq in Hk. rewrite (foldl_assign_lookup _ _ _ Hk).
      rewrite lookup_empty. now destruct (lastValue k rows). }
  now rewrite Heq, Hname.
Qed.

(** X12: Test runs entered as key/value rows and the same runs entered as
    JSON objects with string values materialize to the same items. *)
Theorem materializers_agree (JSON_parse : string → Completion value)
    (kvs : list RawKeyValueInputItems.t) (js : list RawJsonInput.t) (id : string) :
  Forall2 (sameRun JSON_parse) kvs js →
  getReturnNodeJsonFromJson JSON_parse (Some js) id
    = Normal (getReturnNodeJsonFromKeyValue (Some kvs) id).
Proof.
  unfold getReturnNodeJsonFromJson, getReturnNodeJsonFromKeyValue.
  induction 1 as [|kv j kvs js Hsame _ IH]; [reflexivity|].
  rewrite Array_map_cons, (sameRun_item _ _ _ _ Hsame), IH. reflexivity.
Qed.

Lemma materializers_agree_witness :
  getReturnNodeJsonFromJson JSON.parse (Some [RawJsonInput.mk (Some "A") jsonTextX1]) "T1"
    = Normal (getReturnNodeJsonFromKeyValue (Some [exampleRun]) "T1").
Proof.
  apply materializers_agree. constructor; [|constructor].
  split; [reflexivity|].
  exists [KeyValue.mk "x" "1"], {["x" := JString "1"]}.
  split; [reflexivity|]. split; [vm_compute; reflexivity|].
  intros k. destruct (String.eqb k "__proto__") eqn:Hp.
  - apply String.eqb_eq in Hp. subst k. reflexivity.
  - rewrite lastValue_cons. change (lastValue k []) with (@None string).
    cbn [KeyValue.key KeyValue.value]. destruct (String.eqb "x" k) eqn:Hx.
    + apply String.eqb_eq in Hx. subst k. reflexivity.
    + apply String.eqb_neq in Hx. now apply lookup_singleton_ne.
Defined.

(** ** Input batches of the node itself *)

(** X5: When the host reports as the node's inputs the branches
    [nodeInputs] computed, [getNodeInputsData] returns two batches (for
    [pass], then [fail]) under the boolean comparison and one batch
    under every other operation. *)
Theorem getNodeInputsData_of_nodeInputs (Main : string)
    (parameters : gmap string value) (Item : Type)
    (getInputData : nat → Completion (option (list Item))) :
  getNodeInputsData Main (map Branch.type (nodeInputs Main parameters)) Item getInputData
  = if eqString (get (JObject parameters) "operation") "booleanInputComparison"
    then [inputBatch Item getInputData 0; inputBatch Item getInputData 1]
    else [inputBatch Item getInputData 0].
Proof.
  unfold getNodeInputsData, nodeInputs.
  destruct (eqString _ _); simpl; rewrite !String.eqb_refl; reflexivity.
Qed.
